(** * Receipt processor: a shallow embedding of [main.go] and its properties

    The program is an HTTP service with two handlers over one process-wide
    map: [processReceipt] validates a decoded receipt and stores it under a
    fresh identifier, [getReceiptPoints] scores a stored receipt.  The
    handlers are embedded as functions over an explicit store; the library
    routines they call ([regexp], [time.Parse], [strconv.ParseFloat],
    [math.Mod], [math.Ceil], [strings.TrimSpace], [unicode], [uuid]) are
    embedded
    after their documented behaviour, next to the handler code that uses
    them. *)

From Stdlib Require Import ZArith Lia Bool List Ascii String.
From Stdlib Require Import Floats.SpecFloat.
From stdpp Require Import base option gmap strings.

Import ListNotations.
Local Open Scope string_scope.
Local Open Scope Z_scope.

(** ** Bytes and character classes

    A Go [string] is a sequence of bytes; [String.string] is the same.  The
    classes below are the ones of Go's [regexp/syntax] (RE2): [\d], [\w] and
    [\s] are ASCII-only, and [\s] is tab, newline, form feed, carriage return
    and space (no vertical tab). *)

Module Char.

Definition code (c : ascii) : Z := Z.of_N (N_of_ascii c).

Definition between (lo hi : Z) (c : ascii) : bool :=
  (lo <=? code c) && (code c <=? hi).

Definition byte (k : Z) (c : ascii) : bool := code c =? k.

Definition isDigit : ascii -> bool := between 48 57.
Definition isUpper : ascii -> bool := between 65 90.
Definition isLower : ascii -> bool := between 97 122.
Definition isAlpha (c : ascii) : bool := isUpper c || isLower c.

(** [\d], [\w], [\s] and [\S] of the regular expressions. *)
Definition digit : ascii -> bool := isDigit.
Definition word (c : ascii) : bool := isDigit c || isAlpha c || byte 95 c.
Definition space (c : ascii) : bool :=
  byte 9 c || byte 10 c || byte 12 c || byte 13 c || byte 32 c.
Definition nonspace (c : ascii) : bool := negb (space c).

(** [c | ('x' - 'X')], the [lower] of [strconv]. *)
Definition lower (c : ascii) : Z := Z.lor (code c) 32.

(** The value of a decimal digit. *)
Definition digitVal (c : ascii) : Z := code c - 48.

End Char.

(** ** Regular expressions

    The four patterns of the program are all of the shape [^r$], for which
    [MatchString] decides whether the whole input belongs to the language of
    [r].  Matching is by derivatives.  A class is a predicate on bytes: the
    positive classes used here hold no byte above 127, and the negated class
    [\S] holds all of them, so matching bytes agrees with Go's matching of
    UTF-8 runes. *)

Module Regexp.

Inductive regex : Type :=
| Void : regex
| Eps : regex
| Class : (ascii -> bool) -> regex
| Seq : regex -> regex -> regex
| Alt : regex -> regex -> regex
| Star : regex -> regex.

(** [r+] and [r{n}]. *)
Definition Plus (r : regex) : regex := Seq r (Star r).

Fixpoint Repeat (n : nat) (r : regex) : regex :=
  match n with
  | O => Eps
  | S n' => Seq r (Repeat n' r)
  end.

Definition Lit (c : ascii) : regex := Class (Ascii.eqb c).

Fixpoint nullable (r : regex) : bool :=
  match r with
  | Void => false
  | Eps => true
  | Class _ => false
  | Seq r1 r2 => nullable r1 && nullable r2
  | Alt r1 r2 => nullable r1 || nullable r2
  | Star _ => true
  end.

Fixpoint deriv (c : ascii) (r : regex) : regex :=
  match r with
  | Void => Void
  | Eps => Void
  | Class f => if f c then Eps else Void
  | Seq r1 r2 =>
      if nullable r1
      then Alt (Seq (deriv c r1) r2) (deriv c r2)
      else Seq (deriv c r1) r2
  | Alt r1 r2 => Alt (deriv c r1) (deriv c r2)
  | Star r1 => Seq (deriv c r1) (Star r1)
  end.

(** [regexp.MatchString("^r$", s)]. *)
Fixpoint MatchString (r : regex) (s : string) : bool :=
  match s with
  | EmptyString => nullable r
  | String c s' => MatchString (deriv c r) s'
  end.

(** The language of a regular expression. *)
Inductive lang : regex -> string -> Prop :=
| lang_eps : lang Eps ""
| lang_class f c : f c = true -> lang (Class f) (String c "")
| lang_seq r1 r2 s1 s2 : lang r1 s1 -> lang r2 s2 -> lang (Seq r1 r2) (s1 ++ s2)%string
| lang_alt_l r1 r2 s : lang r1 s -> lang (Alt r1 r2) s
| lang_alt_r r1 r2 s : lang r2 s -> lang (Alt r1 r2) s
| lang_star_nil r : lang (Star r) ""
| lang_star_cons r c s1 s2 :
    lang r (String c s1) -> lang (Star r) s2 -> lang (Star r) (String c s1 ++ s2)%string.

End Regexp.

(** ** The patterns of [main.go] *)

Module Patterns.
Import Regexp.

(** ["^[\\w\\s\\-&]+$"], the retailer. *)
Definition retailerClass (c : ascii) : bool :=
  Char.word c || Char.space c || Char.byte 45 c || Char.byte 38 c.
Definition retailerRegExp : regex := Plus (Class retailerClass).

(** [`^[\w\s\-]+$`], an item's short description. *)
Definition shortDescriptionClass (c : ascii) : bool :=
  Char.word c || Char.space c || Char.byte 45 c.
Definition shortDescriptionRegExp : regex := Plus (Class shortDescriptionClass).

(** [`^\d+\.\d{2}$`], an item's price. *)
Definition priceRegExp : regex :=
  Seq (Plus (Class Char.digit)) (Seq (Class (Char.byte 46)) (Repeat 2 (Class Char.digit))).

(** ["^\\S+$"], a receipt identifier. *)
Definition idRegExp : regex := Plus (Class Char.nonspace).

End Patterns.

(** ** [time.Parse]

    [Parse] walks the layout chunk by chunk ([nextStdChunk]), consuming the
    value.  The two layouts of the program split into the chunks below:
    ["2006-01-02"] is a four-digit year, a two-digit month and a two-digit
    day separated by ["-"]; ["15:04"] is an hour of one or two digits
    ([getnum] is called with [fixed = false] for [stdHour]), [":"] and a
    two-digit minute. *)

Module Time.

Inductive chunk : Type :=
| stdLongYear | stdZeroMonth | stdZeroDay | stdHour | stdZeroMinute
| prefix (c : ascii).

Definition layoutDate : list chunk :=
  [stdLongYear; prefix "-"; stdZeroMonth; prefix "-"; stdZeroDay].
Definition layoutClock : list chunk :=
  [stdHour; prefix ":"; stdZeroMinute].

(** The fields [Parse] fills in; [month] and [day] start at [-1]. *)
Record fields : Type := mkFields
  { year : Z; month : Z; day : Z; hour : Z; min : Z }.

Definition noFields : fields := mkFields 0 (-1) (-1) 0 0.

(** The instant [Parse] returns, as far as the program reads it. *)
Record Time : Type := mkTime
  { Year : Z; Month : Z; Day : Z; Hour : Z; Minute : Z }.

(** [Time{}], returned along with an error: January 1 of year 1, 00:00. *)
Definition zeroTime : Time := mkTime 1 1 1 0 0.

Definition getnum (s : string) (fixed : bool) : option (Z * string) :=
  match s with
  | String a rest =>
      if Char.isDigit a then
        match rest with
        | String b rest' =>
            if Char.isDigit b
            then Some (Char.digitVal a * 10 + Char.digitVal b, rest')
            else if fixed then None else Some (Char.digitVal a, rest)
        | EmptyString => if fixed then None else Some (Char.digitVal a, rest)
        end
      else None
  | EmptyString => None
  end.

(** [atoi] of the first four bytes, all of which must be digits. *)
Definition getyear (s : string) : option (Z * string) :=
  match s with
  | String a (String b (String c (String d rest))) =>
      if Char.isDigit a && Char.isDigit b && Char.isDigit c && Char.isDigit d
      then Some (((Char.digitVal a * 10 + Char.digitVal b) * 10
                  + Char.digitVal c) * 10 + Char.digitVal d, rest)
      else None
  | _ => None
  end.

Definition skip (value : string) (c : ascii) : option string :=
  match value with
  | String v rest => if Ascii.eqb v c then Some rest else None
  | EmptyString => None
  end.

Definition parseChunk (std : chunk) (f : fields) (value : string)
  : option (fields * string) :=
  match std with
  | prefix c =>
      match skip value c with
      | Some rest => Some (f, rest)
      | None => None
      end
  | stdLongYear =>
      match getyear value with
      | Some (y, rest) => Some (mkFields y (month f) (day f) (hour f) (min f), rest)
      | None => None
      end
  | stdZeroMonth =>
      match getnum value true with
      | Some (m, rest) =>
          if (m <=? 0) || (12 <? m) then None
          else Some (mkFields (year f) m (day f) (hour f) (min f), rest)
      | None => None
      end
  | stdZeroDay =>
      match getnum value true with
      | Some (d, rest) => Some (mkFields (year f) (month f) d (hour f) (min f), rest)
      | None => None
      end
  | stdHour =>
      match getnum value false with
      | Some (h, rest) =>
          if (h <? 0) || (24 <=? h) then None
          else Some (mkFields (year f) (month f) (day f) h (min f), rest)
      | None => None
      end
  | stdZeroMinute =>
      match getnum value true with
      | Some (m, rest) =>
          if (m <? 0) || (60 <=? m) then None
          else Some (mkFields (year f) (month f) (day f) (hour f) m, rest)
      | None => None
      end
  end.

Fixpoint parseChunks (layout : list chunk) (f : fields) (value : string)
  : option (fields * string) :=
  match layout with
  | [] => Some (f, value)
  | std :: layout' =>
      match parseChunk std f value with
      | Some (f', rest) => parseChunks layout' f' rest
      | None => None
      end
  end.

Definition isLeap (y : Z) : bool :=
  (y mod 4 =? 0) && (negb (y mod 100 =? 0) || (y mod 400 =? 0)).

Definition daysBefore : list Z :=
  [0; 31; 59; 90; 120; 151; 181; 212; 243; 273; 304; 334; 365].

Definition daysIn (m y : Z) : Z :=
  if (m =? 2) && isLeap y then 29
  else nth (Z.to_nat m) daysBefore 0 - nth (Z.to_nat (m - 1)) daysBefore 0.

(** [time.Parse(layout, value)]: [None] stands for a non-nil error. *)
Definition Parse (layout : list chunk) (value : string) : option Time :=
  match parseChunks layout noFields value with
  | Some (f, EmptyString) =>
      let m := if month f <? 0 then 1 else month f in
      let d := if day f <? 0 then 1 else day f in
      if (d <? 1) || (daysIn m (year f) <? d) then None
      else Some (mkTime (year f) m d (hour f) (min f))
  | _ => None
  end.

(** The value the program goes on with when it drops the error. *)
Definition orZero (t : option Time) : Time :=
  match t with
  | Some t' => t'
  | None => zeroTime
  end.

End Time.

(** ** [float64]

    Binary64 values are [spec_float]s with a 53-bit significand; arithmetic
    is the Standard Library's specification of IEEE 754 (round to nearest,
    ties to even). *)

Module Float64.

Definition float64 : Type := spec_float.

Definition prec : Z := 53.
Definition emax : Z := 1024.

Definition NaN : float64 := S754_nan.
Definition Inf (neg : bool) : float64 := S754_infinity neg.
Definition zero (neg : bool) : float64 := S754_zero neg.

(** The binary64 nearest to [m * 2^e], sign [neg] when [m] is zero. *)
Definition ofScaled (neg : bool) (m e : Z) : float64 :=
  binary_normalize prec emax (cond_Zopp neg (Z.abs m)) e neg.

(** The binary64 nearest to [p / q], for [0 <= p] and [0 < q]. *)
Definition ofRatio (neg : bool) (p q : Z) : float64 :=
  match p, q with
  | Zpos p', Zpos q' =>
      SFdiv prec emax (S754_finite neg p' 0) (S754_finite false q' 0)
  | _, _ => S754_zero neg
  end.

Definition mul (x y : float64) : float64 := SFmul prec emax x y.

(** [x == 0]: true of both zeros, false of NaN. *)
Definition isZero (x : float64) : bool := SFeqb x (S754_zero false).

(** [math.Mod(x, y)]: the remainder of [x / y] with the sign of [x], exact;
    NaN when [x] is infinite or NaN, or [y] is zero or NaN; [x] when [y] is
    infinite. *)
Definition Mod (x y : float64) : float64 :=
  match x, y with
  | S754_nan, _ | _, S754_nan => S754_nan
  | S754_infinity _, _ => S754_nan
  | _, S754_zero _ => S754_nan
  | _, S754_infinity _ => x
  | S754_zero _, S754_finite _ _ _ => x
  | S754_finite sx mx ex, S754_finite _ my ey =>
      let e := Z.min ex ey in
      let ax := Zpos mx * 2 ^ (ex - e) in
      let ay := Zpos my * 2 ^ (ey - e) in
      ofScaled sx (Z.rem ax ay) e
  end.

(** [math.Ceil(x)]: the least integer value not below [x]; zeros, infinities
    and NaN are returned as they are. *)
Definition Ceil (x : float64) : float64 :=
  match x with
  | S754_finite sx mx ex =>
      if 0 <=? ex then x
      else
        let d := 2 ^ (- ex) in
        let n := if sx then - (Zpos mx / d) else (Zpos mx + d - 1) / d in
        ofScaled sx n 0
  | _ => x
  end.

Definition minInt64 : Z := - 2 ^ 63.
Definition maxInt64 : Z := 2 ^ 63 - 1.

(** [v] reduced to the range of [int64], as two's-complement addition does. *)
Definition wrap64 (v : Z) : Z := (v + 2 ^ 63) mod 2 ^ 64 - 2 ^ 63.

(** The conversion [int64(x)]: the value truncated towards zero.  When
    [int64] cannot represent it (too large, infinite, NaN) Go leaves the
    result to the implementation; the value here is the one of amd64, the
    least [int64]. *)
Definition toInt64 (x : float64) : Z :=
  match x with
  | S754_zero _ => 0
  | S754_finite sx mx ex =>
      let a := if 0 <=? ex then Zpos mx * 2 ^ ex else Zpos mx / 2 ^ (- ex) in
      let v := if sx then - a else a in
      if (minInt64 <=? v) && (v <=? maxInt64) then v else minInt64
  | _ => minInt64
  end.

End Float64.

(** ** [strconv.ParseFloat(s, 64)]

    [ParseFloat] accepts the special values, and decimal and hexadecimal
    floating-point literals with optional sign, exponent and digit-separating
    underscores; the result is the binary64 nearest to the number written.
    Go reads at most 19 digits into a machine word and falls back on an
    exact decimal conversion when they do not decide the rounding; the reader
    below keeps every digit, which gives the same value.  The error is
    dropped by both callers, so only the value is returned: [0] for a syntax
    error, an infinity for a number out of range. *)

Module Strconv.
Import Float64.

(** The byte with an upper-case letter turned to lower case. *)
Definition foldUpper (c : ascii) : Z :=
  if Char.isUpper c then Char.code c + 32 else Char.code c.

Fixpoint commonPrefixLenIgnoreCase (s pre : string) : nat :=
  match s, pre with
  | String c s', String p pre' =>
      if foldUpper c =? Char.code p
      then S (commonPrefixLenIgnoreCase s' pre')
      else O
  | _, _ => O
  end.

(** [special]: the value and the number of bytes read. *)
Definition specialInf (neg : bool) (nsign : nat) (s : string)
  : option (float64 * nat) :=
  let n := commonPrefixLenIgnoreCase s "infinity" in
  let n := if Nat.ltb 3 n && Nat.ltb n 8 then 3%nat else n in
  if Nat.eqb n 3 || Nat.eqb n 8 then Some (Inf neg, (nsign + n)%nat) else None.

Definition special (s : string) : option (float64 * nat) :=
  match s with
  | EmptyString => None
  | String c rest =>
      if Char.byte 43 c then specialInf false 1 rest
      else if Char.byte 45 c then specialInf true 1 rest
      else if Char.byte 105 c || Char.byte 73 c then specialInf false 0 s
      else if Char.byte 110 c || Char.byte 78 c then
        if Nat.eqb (commonPrefixLenIgnoreCase s "nan") 3 then Some (NaN, 3%nat)
        else None
      else None
  end.

(** The digits read so far: their value [mant] in the base, how many of them
    followed the point, and what was seen. *)
Record digits : Type := mkDigits
  { mant : Z; fracDigits : Z; sawdot : bool; sawdigits : bool; underscores : bool }.

Definition pushDigit (base d : Z) (st : digits) : digits :=
  mkDigits (mant st * base + d)
           (if sawdot st then fracDigits st + 1 else fracDigits st)
           (sawdot st) true (underscores st).

Definition isHexLetter (c : ascii) : bool :=
  (97 <=? Char.lower c) && (Char.lower c <=? 102).

(** The loop of [readFloat] over the mantissa: it stops at the first byte
    that is no underscore, digit or first point. *)
Fixpoint readDigits (hex : bool) (s : string) (st : digits) : digits * string :=
  match s with
  | EmptyString => (st, s)
  | String c s' =>
      if Char.byte 95 c then
        readDigits hex s'
          (mkDigits (mant st) (fracDigits st) (sawdot st) (sawdigits st) true)
      else if Char.byte 46 c then
        if sawdot st then (st, s)
        else readDigits hex s'
               (mkDigits (mant st) (fracDigits st) true (sawdigits st) (underscores st))
      else if Char.isDigit c then
        readDigits hex s' (pushDigit (if hex then 16 else 10) (Char.digitVal c) st)
      else if hex && isHexLetter c then
        readDigits hex s' (pushDigit 16 (Char.lower c - 97 + 10) st)
      else (st, s)
  end.

(** The digits of the exponent; the exponent stops growing at [10000]. *)
Fixpoint readExpDigits (s : string) (e : Z) (us : bool) : Z * bool * string :=
  match s with
  | EmptyString => (e, us, s)
  | String c s' =>
      if Char.isDigit c then
        readExpDigits s' (if e <? 10000 then e * 10 + Char.digitVal c else e) us
      else if Char.byte 95 c then readExpDigits s' e true
      else (e, us, s)
  end.

(** The optional exponent, after its letter: sign, then at least one digit. *)
Definition readExponent (s : string) (us : bool) : option (Z * bool * string) :=
  let '(esign, s1) :=
    match s with
    | String c s' =>
        if Char.byte 43 c then (1, s')
        else if Char.byte 45 c then (-1, s')
        else (1, s)
    | EmptyString => (1, s)
    end in
  match s1 with
  | String c _ =>
      if Char.isDigit c then
        let '(e, us', rest) := readExpDigits s1 0 us in
        Some (e * esign, us', rest)
      else None
  | EmptyString => None
  end.

(** What [readFloat] finds: sign, base, the digits, the exponent of the
    base ([10] or [2]) they are scaled by, whether an underscore occurred,
    and the bytes left unread. *)
Record reading : Type := mkReading
  { neg : bool; hex : bool; value : Z; scale : Z; sawUnderscore : bool; unread : string }.

(** The base prefix ["0x"], taken as one only when a byte follows it. *)
Definition basePrefix (s : string) : bool * string :=
  match s with
  | String a (String b (String c r)) =>
      if Char.byte 48 a && (Char.lower b =? 120)
      then (true, String c r) else (false, s)
  | _ => (false, s)
  end.

Definition readFloat (s : string) : option reading :=
  match s with
  | EmptyString => None
  | String c0 s0 =>
      let '(sgn, s1) :=
        if Char.byte 43 c0 then (false, s0)
        else if Char.byte 45 c0 then (true, s0)
        else (false, s) in
      let '(hx, s2) := basePrefix s1 in
      let '(st, s3) := readDigits hx s2 (mkDigits 0 0 false false false) in
      if negb (sawdigits st) then None
      else
        let unit := if hx then 4 else 1 in
        let expChar := if hx then 112 else 101 in
        match s3 with
        | String c s4 =>
            if Char.lower c =? expChar then
              match readExponent s4 (underscores st) with
              | Some (e, us, rest) =>
                  Some (mkReading sgn hx (mant st) (e - unit * fracDigits st) us rest)
              | None => None
              end
            else if hx then None
            else Some (mkReading sgn hx (mant st) (- unit * fracDigits st)
                                 (underscores st) s3)
        | EmptyString =>
            if hx then None
            else Some (mkReading sgn hx (mant st) (- unit * fracDigits st)
                                 (underscores st) s3)
        end
  end.

(** [underscoreOK]: an underscore stands between digits, or between a base
    prefix and a digit.  [saw] is ["0"] after a digit or base prefix, ["_"]
    after an underscore, ["!"] after anything else and ["^"] at the start. *)
Fixpoint underscoreScan (hx : bool) (s : string) (saw : ascii) : bool :=
  match s with
  | EmptyString => negb (Ascii.eqb saw "_")
  | String c s' =>
      if Char.isDigit c || (hx && isHexLetter c) then underscoreScan hx s' "0"
      else if Char.byte 95 c then
        if Ascii.eqb saw "0" then underscoreScan hx s' "_" else false
      else if Ascii.eqb saw "_" then false
      else underscoreScan hx s' "!"
  end.

Definition underscoreOK (s : string) : bool :=
  let s1 :=
    match s with
    | String c s' => if Char.byte 45 c || Char.byte 43 c then s' else s
    | EmptyString => s
    end in
  match s1 with
  | String a (String b r) =>
      if Char.byte 48 a
         && ((Char.lower b =? 98) || (Char.lower b =? 111) || (Char.lower b =? 120))
      then underscoreScan (Char.lower b =? 120) r "0"
      else underscoreScan false s1 "^"
  | _ => underscoreScan false s1 "^"
  end.

(** The binary64 nearest to [value * base ^ scale]. *)
Definition convert (r : reading) : float64 :=
  let base := if hex r then 2 else 10 in
  if 0 <=? scale r
  then ofRatio (neg r) (value r * base ^ scale r) 1
  else ofRatio (neg r) (value r) (base ^ (- scale r)).

Definition ParseFloat (s : string) : float64 :=
  match special s with
  | Some (f, n) => if Nat.eqb n (String.length s) then f else zero false
  | None =>
      match readFloat s with
      | Some r =>
          match unread r with
          | EmptyString =>
              if sawUnderscore r && negb (underscoreOK s) then zero false
              else convert r
          | _ => zero false
          end
      | None => zero false
      end
  end.

End Strconv.

(** ** [strings.TrimSpace] and [unicode]

    Both are embedded on ASCII.  The strings they are applied to come from
    stored receipts, whose retailer and descriptions matched a pattern that
    admits ASCII bytes only (see [stored_strings_ascii] below); bytes above 127 are
    taken as neither white space, letters nor digits.  On other strings Go
    decodes UTF-8 and also trims the white space beyond ASCII (U+0085,
    U+00A0, ...) and counts the letters and digits beyond it: the properties
    below are stated for validated strings only. *)

Module Strings.

(** The ASCII white space of [TrimSpace]: tab, newline, vertical tab, form
    feed, carriage return and space. *)
Definition asciiSpace (c : ascii) : bool :=
  Char.between 9 13 c || Char.byte 32 c.

Fixpoint trimLeft (s : string) : string :=
  match s with
  | String c s' => if asciiSpace c then trimLeft s' else s
  | EmptyString => s
  end.

(** [s] without its trailing white space. *)
Fixpoint trimRight (s : string) : string :=
  match s with
  | String c s' =>
      match trimRight s' with
      | EmptyString => if asciiSpace c then EmptyString else String c EmptyString
      | t => String c t
      end
  | EmptyString => s
  end.

Definition TrimSpace (s : string) : string := trimRight (trimLeft s).

(** [len(s)]. *)
Definition len (s : string) : Z := Z.of_nat (String.length s).

End Strings.

Module Unicode.

Definition IsLetter (c : ascii) : bool := Char.isAlpha c.
Definition IsDigit (c : ascii) : bool := Char.isDigit c.

End Unicode.

(** ** The data of [main.go]

    A pointer field is an [option]: [None] is [nil].  The JSON decoder leaves
    a field [nil] when the document has no such key (or has [null]). *)

Record ItemStruct : Type := mkItem
  { ShortDescription : option string;
    Price : option string }.

Record ReceiptStruct : Type := mkReceipt
  { Retailer : option string;
    PurchaseDate : option string;
    PurchaseTime : option string;
    Items : option (list ItemStruct);
    Total : option string }.

(** The process-wide [receipts] map.  A value of the Go map is a pointer,
    and indexing an absent key gives [nil]: both are a lookup that gives
    [None]. *)
Abbreviation Store := (gmap string ReceiptStruct).

(** What a handler writes: the status, the body ([http.Error]'s text or the
    encoded response struct) and the line it prints on standard output
    (without its newline). *)
Inductive Body : Type :=
| Text (msg : string)
| ReceiptIDResponse (Id : string)
| PointsResponse (Points : Z).

Record Response : Type := mkResponse
  { Status : Z;
    Content : Body;
    Printed : option string }.

(** What a handler reads of the request: the method, the result of
    [Decode] on the body ([None] when it returned an error) and the path
    value ["id"]. *)
Record Request : Type := mkRequest
  { Method : string;
    Decoded : option ReceiptStruct;
    PathId : string }.

Definition StatusOK : Z := 200.
Definition StatusBadRequest : Z := 400.
Definition StatusNotFound : Z := 404.
Definition StatusMethodNotAllowed : Z := 405.

Definition wasReceiptProcessed (receipts : Store) (id : string) : bool :=
  match receipts !! id with
  | Some _ => true
  | None => false
  end.

(** ** [processReceipt] *)

Import Regexp Patterns.

(** The state a handler leaves: its response, the map, and the identifiers
    [uuid.New] has yet to draw. *)
Record Handled : Type := mkHandled
  { response : Response;
    receipts' : Store;
    uuids' : list string }.

Definition methodNotAllowed : Response :=
  mkResponse StatusMethodNotAllowed (Text "Invalid request method") None.

Definition invalidReceipt (line : string) : Response :=
  mkResponse StatusBadRequest (Text "The receipt is invalid.") (Some line).

(** The body of the loop over the items: the line printed by the first
    check the item fails. *)
Definition checkItem (item : ItemStruct) : option string :=
  match ShortDescription item, Price item with
  | Some description, Some price =>
      if negb (MatchString shortDescriptionRegExp description)
      then Some "Invalid receipt: invalid short description in the item"
      else if negb (MatchString priceRegExp price)
      then Some "Invalid receipt: invalid price in the item"
      else None
  | _, _ => Some "Invalid receipt: item with missing fields"
  end.

Fixpoint checkItems (items : list ItemStruct) : option string :=
  match items with
  | [] => None
  | item :: rest =>
      match checkItem item with
      | Some line => Some line
      | None => checkItems rest
      end
  end.

(** [for id = uuid.New(); wasReceiptProcessed(id.String()); id = uuid.New() {}]
    over the identifiers [uuid.New] is going to draw; [None] when every one
    of them is taken, where the loop is still running. *)
Fixpoint newId (receipts : Store) (uuids : list string) : option (string * list string) :=
  match uuids with
  | [] => None
  | id :: rest =>
      if wasReceiptProcessed receipts id then newId receipts rest
      else Some (id, rest)
  end.

Definition processReceipt (receipts : Store) (uuids : list string) (r : Request)
  : option Handled :=
  let reject line := Some (mkHandled (invalidReceipt line) receipts uuids) in
  if negb (String.eqb (Method r) "POST")
  then Some (mkHandled methodNotAllowed receipts uuids)
  else
    match Decoded r with
    | Some (mkReceipt (Some retailer) (Some purchaseDate) (Some purchaseTime)
                      (Some items) (Some _) as rs) =>
        if negb (MatchString retailerRegExp retailer)
        then reject "Invalid receipt: invalid retailer"
        else
          match Time.Parse Time.layoutDate purchaseDate with
          | None => reject "Invalid receipt: invalid purchase date"
          | Some _ =>
              match Time.Parse Time.layoutClock purchaseTime with
              | None => reject "Invalid receipt: invalid purchase time"
              | Some _ =>
                  if (length items <? 1)%nat
                  then reject "Invalid receipt: no items"
                  else
                    match checkItems items with
                    | Some line => reject line
                    | None =>
                        match newId receipts uuids with
                        | Some (id, rest) =>
                            Some (mkHandled
                                    (mkResponse StatusOK (ReceiptIDResponse id) None)
                                    (<[id := rs]> receipts) rest)
                        | None => None
                        end
                    end
              end
          end
    | _ => reject "Invalid receipt: missing fields"
    end.

(** ** [getReceiptPoints]

    [points] is an [int64]: every addition wraps.  Dereferencing a [nil]
    pointer panics; the computation is in the [option] monad, where [None] is
    that panic. *)

Import Float64.

(** The constants [1], [0.25] and [0.2] as [float64]. *)
Definition one : float64 := ofRatio false 1 1.
Definition quarter : float64 := ofRatio false 25 100.
Definition fifth : float64 := ofRatio false 2 10.

(** One point for every alphanumeric character in the retailer name. *)
Fixpoint retailerPoints (retailer : string) (points : Z) : Z :=
  match retailer with
  | EmptyString => points
  | String char rest =>
      retailerPoints rest
        (if Unicode.IsLetter char || Unicode.IsDigit char
         then wrap64 (points + 1) else points)
  end.

(** [int64(math.Ceil(price * 0.2))], for the price string of an item. *)
Definition priceAward (p : string) : Z :=
  let price := Strconv.ParseFloat p in
  toInt64 (Ceil (mul price fifth)).

(** The body of the loop over the items. *)
Definition itemPoints (item : ItemStruct) (points : Z) : option Z :=
  description ← ShortDescription item;
  let trimmedLength := Strings.len (Strings.TrimSpace description) in
  if Z.rem trimmedLength 3 =? 0 then
    p ← Price item;
    Some (wrap64 (points + priceAward p))
  else Some points.

Fixpoint itemsPoints (items : list ItemStruct) (points : Z) : option Z :=
  match items with
  | [] => Some points
  | item :: rest => points' ← itemPoints item points; itemsPoints rest points'
  end.

Definition receiptPoints (receipt : option ReceiptStruct) : option Z :=
  receipt ← receipt;
  retailer ← Retailer receipt;
  let points := retailerPoints retailer 0 in
  t ← Total receipt;
  let total := Strconv.ParseFloat t in
  let points := if isZero (Mod total one) then wrap64 (points + 50) else points in
  let points := if isZero (Mod total quarter) then wrap64 (points + 25) else points in
  items ← Items receipt;
  let points := wrap64 (points + wrap64 (Z.quot (Z.of_nat (length items)) 2 * 5)) in
  points ← itemsPoints items points;
  purchaseDate ← PurchaseDate receipt;
  let parsedDate := Time.orZero (Time.Parse Time.layoutDate purchaseDate) in
  let points :=
    if negb (Z.rem (Time.Day parsedDate) 2 =? 0) then wrap64 (points + 6) else points in
  purchaseTime ← PurchaseTime receipt;
  let parsedTime := Time.orZero (Time.Parse Time.layoutClock purchaseTime) in
  let points :=
    if (14 <=? Time.Hour parsedTime) && (Time.Hour parsedTime <? 16)
    then wrap64 (points + 10) else points in
  Some points.

Definition notFound (line : string) : Response :=
  mkResponse StatusNotFound (Text "No receipt found for that ID.") (Some line).

Definition getReceiptPoints (receipts : Store) (r : Request) : option Response :=
  if negb (String.eqb (Method r) "GET") then Some methodNotAllowed
  else
    let id := PathId r in
    if negb (MatchString idRegExp id) then Some (notFound "Invalid receipt id")
    else if negb (wasReceiptProcessed receipts id)
    then Some (notFound "No receipt with the such id")
    else
      points ← receiptPoints (receipts !! id);
      Some (mkResponse StatusOK (PointsResponse points) None).

(** ** [uuid.New] and [UUID.String]

    A [UUID] is an array of sixteen bytes.  [New] reads sixteen random bytes
    and sets the version (4) and the variant (binary 10); [String] writes
    them in hexadecimal, in groups of 8, 4, 4, 4 and 12 digits separated by
    hyphens.  The identifiers the handlers draw above are these texts. *)

Module UUID.

Definition hextable : string := "0123456789abcdef".

(** [hextable[n]]. *)
Definition hexChar (n : Z) : ascii :=
  match String.get (Z.to_nat n) hextable with
  | Some c => c
  | None => "0"%char
  end.

(** [hex.Encode]: two digits a byte, the high half first. *)
Fixpoint hexEncode (src : list ascii) : string :=
  match src with
  | [] => EmptyString
  | v :: rest =>
      String (hexChar (Z.shiftr (Char.code v) 4))
             (String (hexChar (Z.land (Char.code v) 15)) (hexEncode rest))
  end.

(** [uuid[lo:hi]]. *)
Definition slice (lo hi : nat) (uuid : list ascii) : list ascii :=
  firstn (hi - lo) (skipn lo uuid).

Definition byteOf (v : Z) : ascii := ascii_of_N (Z.to_N v).

(** [uuid[i] = f(uuid[i])]. *)
Fixpoint update (i : nat) (f : Z -> Z) (uuid : list ascii) : list ascii :=
  match uuid, i with
  | [], _ => []
  | v :: rest, O => byteOf (f (Char.code v)) :: rest
  | v :: rest, S i' => v :: update i' f rest
  end.

(** [NewRandomFromReader], of the sixteen bytes read. *)
Definition New (random : list ascii) : list ascii :=
  update 8 (fun v => Z.lor (Z.land v 63) 128)
    (update 6 (fun v => Z.lor (Z.land v 15) 64) random).

(** [encodeHex] into the 36 bytes of the text. *)
Definition String (uuid : list ascii) : string :=
  (hexEncode (slice 0 4 uuid) ++ "-"
   ++ hexEncode (slice 4 6 uuid) ++ "-"
   ++ hexEncode (slice 6 8 uuid) ++ "-"
   ++ hexEncode (slice 8 10 uuid) ++ "-"
   ++ hexEncode (slice 10 16 uuid))%string.

End UUID.

(** * The notions the properties are stated with *)

(** ** Strings *)

(** Every byte of a string satisfies [f]. *)
Fixpoint allBytes (f : ascii -> bool) (s : string) : bool :=
  match s with
  | EmptyString => true
  | String c s' => f c && allBytes f s'
  end.

(** An ASCII byte. *)
Definition isASCII (c : ascii) : bool := Char.code c <? 128.

(** A string of the class: not empty, every byte in the class. *)
Definition ofClass (f : ascii -> bool) (s : string) : Prop :=
  s <> "" /\ allBytes f s = true.

(** The decimal shape of a price: digits, a point, two digits. *)
Definition priceShape (s : string) : Prop :=
  exists (ds : string) (a b : ascii),
    s = (ds ++ String "." (String a (String b "")))%string
    /\ ofClass Char.digit ds
    /\ Char.digit a = true /\ Char.digit b = true.

(** ** The calendar *)

Module Calendar.

Definition leapYear (y : Z) : bool :=
  ((y mod 4 =? 0) && negb (y mod 100 =? 0)) || (y mod 400 =? 0).

(** The length of month [m] of year [y] in the Gregorian calendar. *)
Definition daysInMonth (y m : Z) : Z :=
  match m with
  | 1 | 3 | 5 | 7 | 8 | 10 | 12 => 31
  | 4 | 6 | 9 | 11 => 30
  | 2 => if leapYear y then 29 else 28
  | _ => 0
  end.

Definition num2 (a b : ascii) : Z := Char.digitVal a * 10 + Char.digitVal b.

Definition num4 (a b c d : ascii) : Z := num2 a b * 100 + num2 c d.

(** [s] is [YYYY-MM-DD] and names a day of the calendar. *)
Definition calendarDate (s : string) : Prop :=
  exists y1 y2 y3 y4 m1 m2 d1 d2 : ascii,
    s = String y1 (String y2 (String y3 (String y4 (String "-"
          (String m1 (String m2 (String "-" (String d1 (String d2 "")))))))))
    /\ allBytes Char.isDigit
         (String y1 (String y2 (String y3 (String y4
           (String m1 (String m2 (String d1 (String d2 "")))))))) = true
    /\ 1 <= num2 m1 m2 <= 12
    /\ 1 <= num2 d1 d2 <= daysInMonth (num4 y1 y2 y3 y4) (num2 m1 m2).

(** [s] is a time of day as the layout ["15:04"] reads it: an hour of one or
    two digits below 24, a colon, a minute of two digits below 60. *)
Definition clockTime (s : string) : Prop :=
  exists (h : Z) (hs : string) (m1 m2 : ascii),
    s = (hs ++ String ":" (String m1 (String m2 "")))%string
    /\ ((exists a, hs = String a "" /\ Char.isDigit a = true /\ h = Char.digitVal a)
        \/ (exists a b, hs = String a (String b "")
                        /\ Char.isDigit a = true /\ Char.isDigit b = true
                        /\ h = num2 a b))
    /\ h < 24
    /\ Char.isDigit m1 = true /\ Char.isDigit m2 = true
    /\ num2 m1 m2 < 60.

(** The time of day in the stricter reading [HH:MM]: an hour of exactly two
    digits, [00] to [23], a colon, a minute of two digits, [00] to [59]. *)
Definition twoDigitClockTime (s : string) : Prop :=
  exists h1 h2 m1 m2 : ascii,
    s = String h1 (String h2 (String ":" (String m1 (String m2 ""))))
    /\ allBytes Char.isDigit (String h1 (String h2 (String m1 (String m2 "")))) = true
    /\ num2 h1 h2 <= 23
    /\ num2 m1 m2 <= 59.

End Calendar.

(** ** The validator inside [processReceipt]

    The checks of the handler in the order it makes them, each with what it
    asks of the decoded body and the lines it may print. *)

Inductive check : Type :=
| FieldsPresent
| RetailerPattern
| PurchaseDateParses
| PurchaseTimeParses
| ItemsNonEmpty
| ItemsWellFormed.

Definition checkOrder : list check :=
  [FieldsPresent; RetailerPattern; PurchaseDateParses; PurchaseTimeParses;
   ItemsNonEmpty; ItemsWellFormed].

Definition fieldsPresent (rs : ReceiptStruct) : Prop :=
  is_Some (Retailer rs) /\ is_Some (PurchaseDate rs) /\ is_Some (PurchaseTime rs)
  /\ is_Some (Items rs) /\ is_Some (Total rs).

Definition wellFormedItem (item : ItemStruct) : Prop :=
  exists description price,
    ShortDescription item = Some description /\ Price item = Some price
    /\ ofClass Patterns.shortDescriptionClass description
    /\ priceShape price.

Definition holds (c : check) (decoded : option ReceiptStruct) : Prop :=
  match c with
  | FieldsPresent => exists rs, decoded = Some rs /\ fieldsPresent rs
  | RetailerPattern =>
      forall rs retailer, decoded = Some rs -> Retailer rs = Some retailer ->
        ofClass Patterns.retailerClass retailer
  | PurchaseDateParses =>
      forall rs d, decoded = Some rs -> PurchaseDate rs = Some d ->
        Calendar.calendarDate d
  | PurchaseTimeParses =>
      forall rs t, decoded = Some rs -> PurchaseTime rs = Some t ->
        Calendar.clockTime t
  | ItemsNonEmpty =>
      forall rs items, decoded = Some rs -> Items rs = Some items -> items <> []
  | ItemsWellFormed =>
      forall rs items, decoded = Some rs -> Items rs = Some items ->
        Forall wellFormedItem items
  end.

Definition printedBy (c : check) : list string :=
  match c with
  | FieldsPresent => ["Invalid receipt: missing fields"]
  | RetailerPattern => ["Invalid receipt: invalid retailer"]
  | PurchaseDateParses => ["Invalid receipt: invalid purchase date"]
  | PurchaseTimeParses => ["Invalid receipt: invalid purchase time"]
  | ItemsNonEmpty => ["Invalid receipt: no items"]
  | ItemsWellFormed =>
      ["Invalid receipt: item with missing fields";
       "Invalid receipt: invalid short description in the item";
       "Invalid receipt: invalid price in the item"]
  end.

(** The checks as a function of the decoded body: the line printed by the
    first that fails, [None] when the receipt goes on to be stored. *)
Definition validate (decoded : option ReceiptStruct) : option string :=
  match decoded with
  | Some (mkReceipt (Some retailer) (Some purchaseDate) (Some purchaseTime)
                    (Some items) (Some _)) =>
      if negb (Regexp.MatchString Patterns.retailerRegExp retailer)
      then Some "Invalid receipt: invalid retailer"
      else
        match Time.Parse Time.layoutDate purchaseDate with
        | None => Some "Invalid receipt: invalid purchase date"
        | Some _ =>
            match Time.Parse Time.layoutClock purchaseTime with
            | None => Some "Invalid receipt: invalid purchase time"
            | Some _ =>
                if (length items <? 1)%nat then Some "Invalid receipt: no items"
                else checkItems items
            end
        end
  | _ => Some "Invalid receipt: missing fields"
  end.

(** The body of a receipt whose five fields are present. *)
Definition present (retailer d t : string) (items : list ItemStruct) (total : string)
  : option ReceiptStruct :=
  Some (mkReceipt (Some retailer) (Some d) (Some t) (Some items) (Some total)).

(** What the handler leaves when a check failed: nothing drawn, nothing
    stored. *)
Definition rejected (line : string) (receipts : Store) (uuids : list string) : Handled :=
  mkHandled (invalidReceipt line) receipts uuids.

(** ** The stores the program can be in *)

Inductive reachable : Store -> Prop :=
| reachable_empty : reachable ∅
| reachable_process receipts uuids r h :
    reachable receipts ->
    processReceipt receipts uuids r = Some h ->
    reachable (receipts' h).

(** Every stored receipt passed the checks. *)
Definition storeValid (receipts : Store) : Prop :=
  forall id rs, receipts !! id = Some rs -> validate (Some rs) = None.

(** ** Whole cents

    The integer a decimal string of the price shape denotes, in cents: its
    digits read without the point. *)

Fixpoint digitsValue (s : string) (acc : Z) : Z :=
  match s with
  | EmptyString => acc
  | String c s' =>
      digitsValue s' (if Char.isDigit c then acc * 10 + Char.digitVal c else acc)
  end.

Definition cents (s : string) : option Z :=
  if Regexp.MatchString Patterns.priceRegExp s then Some (digitsValue s 0) else None.

(** ** The items that score *)


(** The request of a method with a body, and of a method for an identifier. *)
Definition submit (rs : ReceiptStruct) : Request := mkRequest "POST" (Some rs) "".
Definition query (id : string) : Request := mkRequest "GET" None id.

(** ** Receipts the properties are tried on *)

Module Scenario.

Definition item (description price : string) : ItemStruct :=
  mkItem (Some description) (Some price).

Definition receipt (retailer d t : string) (items : list ItemStruct) (total : string)
  : ReceiptStruct :=
  mkReceipt (Some retailer) (Some d) (Some t) (Some items) (Some total).

Definition uuid : string := "7fb1377b-b223-49d9-a31a-5a02701dd310".

Definition receiptA : ReceiptStruct :=
  receipt "Target" "2022-01-01" "13:01"
    [item "Mountain Dew 12PK" "6.49";
     item "Emils Cheese Pizza" "12.25";
     item "Knorr Creamy Chicken" "1.26";
     item "Doritos Nacho Cheese" "3.35";
     item "   Klarbrunn 12-PK 12 FL OZ  " "12.00"]
    "35.35".

Definition receiptB : ReceiptStruct :=
  receipt "M&M Corner Market" "2022-03-20" "14:33"
    [item "Gatorade" "2.25"; item "Gatorade" "2.25";
     item "Gatorade" "2.25"; item "Gatorade" "2.25"]
    "9.00".

(** A receipt that is in order but for its total. *)
Definition withTotal (total : string) : ReceiptStruct :=
  receipt "Target" "2022-01-02" "13:01" [item "Gatorade" "2.25"] total.

(** The same receipt with one item of a blank description, and with one
    whose description does not score. *)
Definition withDescription (description : string) : ReceiptStruct :=
  receipt "Target" "2022-01-02" "13:01" [item description "5.00"] "1.10".

(** No items, and a retailer outside the pattern. *)
Definition noItemsBadRetailer : ReceiptStruct :=
  receipt "!!!" "2022-01-02" "13:01" [] "1.10".

Definition noItems : ReceiptStruct :=
  receipt "Target" "2022-01-02" "13:01" [] "1.10".

Definition badDate : ReceiptStruct :=
  receipt "Target" "2023-02-30" "13:01" [item "Gatorade" "2.25"] "2.25".

(** An hour of one digit. *)
Definition oneDigitHour : ReceiptStruct :=
  receipt "Target" "2022-01-02" "9:05" [item "Gatorade" "2.25"] "2.25".

(** Two items of forty quintillion each. *)
Definition hugePrices : ReceiptStruct :=
  receipt "Target" "2022-01-02" "13:01"
    [item "abc" "40000000000000000000.00"; item "abc" "40000000000000000000.00"]
    "1.10".

(** The map after a receipt was submitted to the empty one. *)
Definition storeOf (rs : ReceiptStruct) : Store := <[uuid := rs]> ∅.

(** Submitting a receipt to the empty map and asking for its points. *)
Definition submitThenQuery (rs : ReceiptStruct) : option Response :=
  h ← processReceipt ∅ [uuid] (submit rs);
  getReceiptPoints (receipts' h) (query uuid).

End Scenario.

(** ** What an item adds to the score *)

(** The points an item with both its fields adds, before wrapping. *)
Definition contribution (item : ItemStruct) : Z :=
  match ShortDescription item, Price item with
  | Some description, Some price =>
      if Z.rem (Strings.len (Strings.TrimSpace description)) 3 =? 0
      then priceAward price else 0
  | _, _ => 0
  end.

Fixpoint contributions (items : list ItemStruct) : Z :=
  match items with
  | [] => 0
  | item :: rest => contribution item + contributions rest
  end.

(** The range of [int64]. *)
Definition inInt64 (v : Z) : Prop := Float64.minInt64 <= v <= Float64.maxInt64.

(** ** A fifth of a price, exactly *)

(** The least integer not below a fifth of [c] cents, in points. *)
Definition exactAward (c : Z) : Z := (c + 499) / 500.

(** The award of the code for a price of [c] cents. *)
Definition awardOfCents (c : Z) : Z :=
  Float64.toInt64 (Float64.Ceil (Float64.mul (Float64.ofRatio false c 100) fifth)).

(** The two agree on the [n] amounts from [c] on. *)
Fixpoint awardsAgree (n : nat) (c : Z) : bool :=
  match n with
  | O => true
  | S n' => (awardOfCents c =? exactAward c) && awardsAgree n' (c + 1)
  end.

(** ** Runs of the program *)

(** The stores that follow a store by calls of [processReceipt]. *)
Inductive follows (receipts : Store) : Store -> Prop :=
| follows_refl : follows receipts receipts
| follows_step later uuids r h :
    follows receipts later ->
    processReceipt later uuids r = Some h ->
    follows receipts (receipts' h).

(** The texts of the identifiers [uuid.New] makes of the random bytes it
    reads, sixteen at a time. *)
Definition drawn (randoms : list (list ascii)) : list string :=
  map (fun random => UUID.String (UUID.New random)) randoms.

(** ** The rules of the score *)

(** The letters and digits of a string. *)
Fixpoint alnumCount (s : string) : Z :=
  match s with
  | EmptyString => 0
  | String c s' =>
      (if Unicode.IsLetter c || Unicode.IsDigit c then 1 else 0) + alnumCount s'
  end.

(** The tests of the handler on a total, a date and a time. *)
Definition wholeDollar (total : string) : bool :=
  Float64.isZero (Float64.Mod (Strconv.ParseFloat total) one).

Definition quarterMultiple (total : string) : bool :=
  Float64.isZero (Float64.Mod (Strconv.ParseFloat total) quarter).

Definition dayOdd (purchaseDate : string) : bool :=
  negb (Z.rem (Time.Day (Time.orZero (Time.Parse Time.layoutDate purchaseDate))) 2 =? 0).

Definition afternoon (purchaseTime : string) : bool :=
  let hour := Time.Hour (Time.orZero (Time.Parse Time.layoutClock purchaseTime)) in
  (14 <=? hour) && (hour <? 16).

(** What the rules add up to, before the sum is reduced to an [int64]. *)
Definition ruleSum (retailer d t : string) (items : list ItemStruct) (total : string) : Z :=
  alnumCount retailer
  + (if wholeDollar total then 50 else 0)
  + (if quarterMultiple total then 25 else 0)
  + Z.quot (Z.of_nat (length items)) 2 * 5
  + contributions items
  + (if dayOdd d then 6 else 0)
  + (if afternoon t then 10 else 0).

(** ** The score on exact amounts

    The same rules read off the strings without floating point: the total
    and the prices in whole cents, the day as the last two digits of the
    date, the hour as the digits before the colon. *)

Definition centsOf (s : string) : Z :=
  match cents s with
  | Some c => c
  | None => 0
  end.

Definition dayOfDate (purchaseDate : string) : Z :=
  digitsValue (String.substring 8 2 purchaseDate) 0.

Fixpoint beforeColon (s : string) : string :=
  match s with
  | EmptyString => EmptyString
  | String c s' => if Char.byte 58 c then EmptyString else String c (beforeColon s')
  end.

Definition hourOfTime (purchaseTime : string) : Z :=
  digitsValue (beforeColon purchaseTime) 0.

Definition exactContribution (item : ItemStruct) : Z :=
  match ShortDescription item, Price item with
  | Some description, Some price =>
      if Z.rem (Strings.len (Strings.TrimSpace description)) 3 =? 0
      then exactAward (centsOf price) else 0
  | _, _ => 0
  end.

Fixpoint exactContributions (items : list ItemStruct) : Z :=
  match items with
  | [] => 0
  | item :: rest => exactContribution item + exactContributions rest
  end.

Definition exactPoints (retailer d t : string) (items : list ItemStruct) (total : string) : Z :=
  alnumCount retailer
  + (if centsOf total mod 100 =? 0 then 50 else 0)
  + (if centsOf total mod 25 =? 0 then 25 else 0)
  + 5 * (Z.of_nat (length items) / 2)
  + exactContributions items
  + (if Z.odd (dayOfDate d) then 6 else 0)
  + (if (14 <=? hourOfTime t) && (hourOfTime t <? 16) then 10 else 0).

(** The tests of the handler on a total of [c] cents. *)
Definition wholeOfCents (c : Z) : bool :=
  Float64.isZero (Float64.Mod (Float64.ofRatio false c 100) one).

Definition quarterOfCents (c : Z) : bool :=
  Float64.isZero (Float64.Mod (Float64.ofRatio false c 100) quarter).

(** They agree with the remainders of the cents on the [n] amounts from
    [c] on. *)
Fixpoint totalsAgree (n : nat) (c : Z) : bool :=
  match n with
  | O => true
  | S n' =>
      Bool.eqb (wholeOfCents c) (c mod 100 =? 0)
      && Bool.eqb (quarterOfCents c) (c mod 25 =? 0)
      && totalsAgree n' (c + 1)
  end.

(** A byte no number starts with: neither a digit, a sign, a point or an
    underscore, nor the first letter of [inf] or [nan]. *)
Definition startsNoNumber (c : ascii) : bool :=
  negb (Char.isDigit c || Char.byte 43 c || Char.byte 45 c || Char.byte 46 c
        || Char.byte 95 c || Char.byte 105 c || Char.byte 73 c
        || Char.byte 110 c || Char.byte 78 c).

(** * Properties *)
(** ** The matcher decides the language *)

Module RegexpFacts.
Import Regexp.

Local Open Scope string_scope.

Lemma append_nil (s : string) : ("" ++ s)%string = s.
Proof. reflexivity. Qed.

Lemma append_cons (c : ascii) (s t : string) :
  (String c s ++ t)%string = String c (s ++ t)%string.
Proof. reflexivity. Qed.

Lemma append_empty_inv (s1 s2 : string) :
  (s1 ++ s2)%string = "" -> s1 = "" /\ s2 = "".
Proof.
  destruct s1; [rewrite append_nil; auto | rewrite append_cons; discriminate].
Qed.

Lemma nullable_lang (r : regex) : nullable r = true <-> lang r "".
Proof.
  split.
  - induction r; simpl; intros H; try discriminate.
    + constructor.
    + apply andb_true_iff in H as [H1 H2].
      change "" with ("" ++ "")%string. constructor; auto.
    + apply orb_true_iff in H as [H | H]; [apply lang_alt_l | apply lang_alt_r]; auto.
    + constructor.
  - intros H. remember "" as s eqn:Es.
    induction H; simpl; try discriminate; auto.
    + apply append_empty_inv in Es as [-> ->].
      rewrite IHlang1, IHlang2; auto.
    + rewrite IHlang; auto.
    + rewrite IHlang; auto using orb_true_r.
Qed.

Lemma deriv_sound (c : ascii) (r : regex) :
  forall s, lang (deriv c r) s -> lang r (String c s).
Proof.
  induction r; simpl; intros s H.
  - inversion H.
  - inversion H.
  - destruct (b c) eqn:Eb; inversion H; subst. now constructor.
  - assert (Hseq : forall w, lang (Seq (deriv c r1) r2) w -> lang (Seq r1 r2) (String c w)).
    { intros w Hw. inversion Hw; subst.
      change (String c (s1 ++ s2)%string) with (String c s1 ++ s2)%string.
      constructor; auto. }
    destruct (nullable r1) eqn:En; [| auto].
    inversion H; subst; [auto |].
    change (String c s) with ("" ++ String c s)%string.
    constructor; [now apply nullable_lang | auto].
  - inversion H; subst; [apply lang_alt_l | apply lang_alt_r]; auto.
  - inversion H; subst.
    change (String c (s1 ++ s2)%string) with (String c s1 ++ s2)%string.
    constructor; auto.
Qed.

Lemma deriv_complete (r : regex) (w : string) :
  lang r w -> forall c s, w = String c s -> lang (deriv c r) s.
Proof.
  induction 1; intros a t E; simpl; try discriminate.
  - injection E as -> <-. rewrite H. constructor.
  - destruct s1 as [| b s1']; [rewrite append_nil in E | rewrite append_cons in E].
    + subst s2. apply nullable_lang in H. rewrite H.
      apply lang_alt_r. now apply IHlang2.
    + injection E as -> <-.
      assert (Hseq : lang (Seq (deriv a r1) r2) (s1' ++ s2)%string)
        by (constructor; [now apply IHlang1 | assumption]).
      destruct (nullable r1); [now apply lang_alt_l | assumption].
  - apply lang_alt_l. now apply IHlang.
  - apply lang_alt_r. now apply IHlang.
  - rewrite append_cons in E. injection E as -> <-.
    constructor; [now apply IHlang1 | assumption].
Qed.

(** [MatchString] decides membership in the language. *)
Lemma MatchString_lang (s : string) :
  forall r, MatchString r s = true <-> lang r s.
Proof.
  induction s as [| c s IH]; intros r; simpl.
  - apply nullable_lang.
  - rewrite IH. split; [apply deriv_sound |].
    intros H. now apply (deriv_complete r (String c s)).
Qed.

Lemma lang_class_inv (f : ascii -> bool) (s : string) :
  lang (Class f) s -> exists c, s = String c "" /\ f c = true.
Proof. inversion 1; subst; eauto. Qed.

Lemma lang_star_class (f : ascii -> bool) (s : string) :
  lang (Star (Class f)) s <-> allBytes f s = true.
Proof.
  split.
  - intros H. remember (Star (Class f)) as r eqn:Er.
    induction H; try discriminate; [reflexivity |].
    injection Er as ->.
    apply lang_class_inv in H as (c' & E & Hc).
    injection E as <- ->. rewrite append_cons, append_nil. simpl.
    rewrite Hc. now apply IHlang2.
  - induction s as [| c s IH]; simpl; intros H; [constructor |].
    apply andb_true_iff in H as [Hc Hs].
    change (String c s) with (String c "" ++ s)%string.
    constructor; [now constructor | auto].
Qed.

(** [^[class]+$] holds of the non-empty strings of the class. *)
Lemma MatchString_plus_class (f : ascii -> bool) (s : string) :
  MatchString (Plus (Class f)) s = true <-> s <> "" /\ allBytes f s = true.
Proof.
  rewrite MatchString_lang. unfold Plus. split.
  - inversion 1; subst.
    match goal with H : lang (Class f) _ |- _ =>
      apply lang_class_inv in H as (c & -> & Hc) end.
    rewrite append_cons, append_nil. simpl. rewrite Hc. split; [discriminate |].
    now apply lang_star_class.
  - intros [Hne H]. destruct s as [| c s]; [congruence |].
    simpl in H. apply andb_true_iff in H as [Hc Hs].
    change (String c s) with (String c "" ++ s)%string.
    constructor; [now constructor | now apply lang_star_class].
Qed.

End RegexpFacts.


(** ** [time.Parse] accepts the dates of the calendar *)

Module TimeFacts.
Import Time Calendar.

Lemma isLeap_leapYear (y : Z) : isLeap y = leapYear y.
Proof.
  unfold isLeap, leapYear.
  destruct (y mod 4 =? 0) eqn:E4, (y mod 100 =? 0) eqn:E100,
           (y mod 400 =? 0) eqn:E400; simpl; try reflexivity;
    rewrite ?Z.eqb_eq, ?Z.eqb_neq in *; Z.div_mod_to_equations; lia.
Qed.

Lemma daysIn_daysInMonth (m y : Z) :
  1 <= m <= 12 -> daysIn m y = daysInMonth y m.
Proof.
  intros Hm. unfold daysIn. rewrite isLeap_leapYear.
  assert (Hc : m = 1 \/ m = 2 \/ m = 3 \/ m = 4 \/ m = 5 \/ m = 6 \/ m = 7
               \/ m = 8 \/ m = 9 \/ m = 10 \/ m = 11 \/ m = 12) by lia.
  repeat (destruct Hc as [-> | Hc]); try subst m; simpl;
    try reflexivity; destruct (leapYear y); reflexivity.
Qed.

Lemma digitVal_range (a : ascii) :
  Char.isDigit a = true -> 0 <= Char.digitVal a <= 9.
Proof.
  unfold Char.isDigit, Char.between, Char.digitVal.
  rewrite andb_true_iff, !Z.leb_le. lia.
Qed.

Lemma num2_range (a b : ascii) :
  Char.isDigit a = true -> Char.isDigit b = true -> 0 <= num2 a b <= 99.
Proof.
  intros Ha%digitVal_range Hb%digitVal_range. unfold num2. lia.
Qed.

(** What the readers of [Parse] accept. *)

Lemma getnum_fixed (s rest : string) (n : Z) :
  getnum s true = Some (n, rest) <->
  exists a b, s = String a (String b rest)
              /\ Char.isDigit a = true /\ Char.isDigit b = true /\ n = num2 a b.
Proof.
  unfold getnum, num2. split.
  - destruct s as [| a [| b r]]; try discriminate;
      destruct (Char.isDigit a) eqn:Ea; try discriminate.
    destruct (Char.isDigit b) eqn:Eb; try discriminate.
    intros [= <- <-]. eauto 7.
  - intros (a & b & -> & Ea & Eb & ->). now rewrite Ea, Eb.
Qed.

Lemma getnum_free (s rest : string) (n : Z) :
  getnum s false = Some (n, rest) <->
  (exists a, s = String a rest /\ Char.isDigit a = true /\ n = Char.digitVal a
             /\ forall b r, rest = String b r -> Char.isDigit b = false)
  \/ (exists a b, s = String a (String b rest)
                  /\ Char.isDigit a = true /\ Char.isDigit b = true /\ n = num2 a b).
Proof.
  unfold getnum, num2. split.
  - destruct s as [| a [| b r]]; try discriminate;
      destruct (Char.isDigit a) eqn:Ea; try discriminate.
    + intros [= <- <-]. left. exists a. repeat split; auto. discriminate.
    + destruct (Char.isDigit b) eqn:Eb; intros [= <- <-].
      * right. eauto 7.
      * left. exists a. repeat split; auto. now intros ? ? [= <- <-].
  - intros [(a & -> & Ea & -> & Hrest) | (a & b & -> & Ea & Eb & ->)].
    + rewrite Ea. destruct rest as [| b r]; [reflexivity |].
      now rewrite (Hrest b r eq_refl).
    + now rewrite Ea, Eb.
Qed.

Lemma getyear_Some (s rest : string) (y : Z) :
  getyear s = Some (y, rest) <->
  exists a b c d, s = String a (String b (String c (String d rest)))
                  /\ Char.isDigit a = true /\ Char.isDigit b = true
                  /\ Char.isDigit c = true /\ Char.isDigit d = true
                  /\ y = num4 a b c d.
Proof.
  unfold getyear, num4, num2. split.
  - destruct s as [| a [| b [| c [| d r]]]]; try discriminate.
    destruct (Char.isDigit a) eqn:Ea, (Char.isDigit b) eqn:Eb,
             (Char.isDigit c) eqn:Ec, (Char.isDigit d) eqn:Ed; try discriminate.
    simpl. intros [= <- <-]. exists a, b, c, d. repeat split; auto. lia.
  - intros (a & b & c & d & -> & Ea & Eb & Ec & Ed & ->).
    rewrite Ea, Eb, Ec, Ed. simpl. do 2 f_equal. lia.
Qed.

Lemma skip_Some (value rest : string) (c : ascii) :
  skip value c = Some rest <-> value = String c rest.
Proof.
  unfold skip. split.
  - destruct value as [| v r]; try discriminate.
    destruct (Ascii.eqb v c) eqn:E; try discriminate.
    apply Ascii.eqb_eq in E. now intros [= <-]; subst.
  - intros ->. now rewrite Ascii.eqb_refl.
Qed.

(** Case analysis on the result of the reader a parser calls next. *)
Ltac reduce_in H :=
  cbn beta iota delta [year month day hour min noFields] in H.

Ltac case_reader H :=
  let E := fresh "E" in
  match type of H with
  | context [getyear ?v] =>
      destruct (getyear v) as [[? ?] |] eqn:E; [reduce_in H | reduce_in H; discriminate H]
  | context [skip ?v ?c] =>
      destruct (skip v c) as [? |] eqn:E; [reduce_in H | reduce_in H; discriminate H]
  | context [getnum ?v ?f] =>
      destruct (getnum v f) as [[? ?] |] eqn:E; [reduce_in H | reduce_in H; discriminate H]
  end.

Ltac digits :=
  repeat match goal with
         | E : Char.isDigit _ = true |- _ => rewrite E
         end;
  reflexivity.

Ltac case_unread H :=
  match type of H with
  | context [match ?r with EmptyString => _ | String _ _ => _ end] =>
      is_var r; destruct r; [| discriminate H]
  end.

Ltac case_cond H c :=
  let E := fresh "E" in
  destruct c eqn:E; [reduce_in H; discriminate H | reduce_in H];
  apply orb_false_iff in E as [? ?].

Ltac case_range H :=
  match type of H with
  | context [if (?a <=? 0) || ?b then _ else _] => case_cond H ((a <=? 0) || b)%bool
  | context [if (?a <? 0) || ?b then _ else _] => case_cond H ((a <? 0) || b)%bool
  | context [if (?a || ?b)%bool then _ else _] => case_cond H (a || b)%bool
  end.

(** What [Parse] makes of the layout ["2006-01-02"]. *)
Lemma Parse_date (s : string) (t : Time) :
  Parse layoutDate s = Some t <->
  exists y1 y2 y3 y4 m1 m2 d1 d2 : ascii,
    s = String y1 (String y2 (String y3 (String y4 (String "-"
          (String m1 (String m2 (String "-" (String d1 (String d2 "")))))))))
    /\ allBytes Char.isDigit
         (String y1 (String y2 (String y3 (String y4
           (String m1 (String m2 (String d1 (String d2 "")))))))) = true
    /\ 1 <= num2 m1 m2 <= 12
    /\ 1 <= num2 d1 d2 <= daysInMonth (num4 y1 y2 y3 y4) (num2 m1 m2)
    /\ t = mkTime (num4 y1 y2 y3 y4) (num2 m1 m2) (num2 d1 d2) 0 0.
Proof.
  unfold Parse, layoutDate. cbn [parseChunks parseChunk]. split.
  - intros H. reduce_in H.
    case_reader H. apply getyear_Some in E as (y1 & y2 & y3 & y4 & -> & ? & ? & ? & ? & ->).
    case_reader H. apply skip_Some in E as ->.
    case_reader H. apply getnum_fixed in E as (m1 & m2 & -> & ? & ? & ->).
    case_range H.
    case_reader H. apply skip_Some in E as ->.
    case_reader H. apply getnum_fixed in E as (d1 & d2 & -> & ? & ? & ->).
    case_unread H.
    rewrite ?Z.leb_gt, ?Z.ltb_ge in *.
    pose proof (num2_range d1 d2 ltac:(assumption) ltac:(assumption)) as Hd.
    destruct (num2 m1 m2 <? 0) eqn:E3; [rewrite Z.ltb_lt in E3; lia |].
    destruct (num2 d1 d2 <? 0) eqn:E4; [rewrite Z.ltb_lt in E4; lia |].
    case_range H. rewrite ?Z.ltb_ge in *.
    rewrite daysIn_daysInMonth in * by lia.
    injection H as <-.
    exists y1, y2, y3, y4, m1, m2, d1, d2.
    split; [reflexivity |]. split; [cbn [allBytes]; digits |].
    repeat split; lia.
  - intros (y1 & y2 & y3 & y4 & m1 & m2 & d1 & d2 & -> & Hd & Hm & Hday & ->).
    cbn [allBytes] in Hd. repeat (apply andb_true_iff in Hd as [? Hd]).
    rewrite (proj2 (getyear_Some _ _ _)) by (eexists _, _, _, _; eauto 10).
    rewrite (proj2 (skip_Some _ _ _) eq_refl).
    rewrite (proj2 (getnum_fixed _ _ _)) by (eexists _, _; eauto 10).
    destruct (_ || _)%bool eqn:E1;
      [apply orb_true_iff in E1; rewrite Z.leb_le, Z.ltb_lt in E1; lia |].
    rewrite (proj2 (skip_Some _ _ _) eq_refl).
    rewrite (proj2 (getnum_fixed _ _ _)) by (eexists _, _; eauto 10).
    cbn [year month day hour min].
    destruct (num2 m1 m2 <? 0) eqn:E3; [rewrite Z.ltb_lt in E3; lia |].
    destruct (num2 d1 d2 <? 0) eqn:E4; [rewrite Z.ltb_lt in E4; lia |].
    rewrite daysIn_daysInMonth by lia.
    destruct ((num2 d1 d2 <? 1) || _)%bool eqn:E5;
      [apply orb_true_iff in E5; rewrite !Z.ltb_lt in E5; lia | reflexivity].
Qed.

(** What [Parse] makes of the layout ["15:04"]. *)
Lemma Parse_clock (s : string) (t : Time) :
  Parse layoutClock s = Some t <->
  exists (h : Z) (hs : string) (m1 m2 : ascii),
    s = (hs ++ String ":" (String m1 (String m2 "")))%string
    /\ ((exists a, hs = String a "" /\ Char.isDigit a = true /\ h = Char.digitVal a)
        \/ (exists a b, hs = String a (String b "")
                        /\ Char.isDigit a = true /\ Char.isDigit b = true
                        /\ h = num2 a b))
    /\ h < 24
    /\ Char.isDigit m1 = true /\ Char.isDigit m2 = true
    /\ num2 m1 m2 < 60
    /\ t = mkTime 0 1 1 h (num2 m1 m2).
Proof.
  unfold Parse, layoutClock. cbn [parseChunks parseChunk]. split.
  - intros H. reduce_in H.
    case_reader H. case_range H.
    case_reader H. apply skip_Some in E0 as ->.
    case_reader H. apply getnum_fixed in E0 as (m1 & m2 & -> & ? & ? & ->).
    case_range H. case_unread H.
    rewrite ?Z.leb_gt, ?Z.ltb_ge in *.
    cbn in H. injection H as <-.
    apply getnum_free in E as [(a & -> & ? & -> & _) | (a & b & -> & ? & ? & ->)].
    + exists (Char.digitVal a), (String a ""), m1, m2.
      repeat split; auto. left. eauto.
    + exists (num2 a b), (String a (String b "")), m1, m2.
      repeat split; auto. right. eauto 7.
  - intros (h & hs & m1 & m2 & -> & Hh & Hlt & Hm1 & Hm2 & Hm & ->).
    assert (E : getnum (hs ++ String ":" (String m1 (String m2 ""))) false
                = Some (h, String ":" (String m1 (String m2 "")))).
    { apply getnum_free.
      destruct Hh as [(a & -> & Ha & ->) | (a & b & -> & Ha & Hb & ->)].
      - left. exists a. repeat split; auto. now intros ? ? [= <- <-].
      - right. exists a, b. repeat split; auto. }
    assert (0 <= h).
    { destruct Hh as [(a & _ & Ha%digitVal_range & ->) | (a & b & _ & Ha & Hb & ->)];
        [lia | pose proof (num2_range a b Ha Hb); lia]. }
    pose proof (num2_range m1 m2 Hm1 Hm2).
    rewrite E.
    destruct ((h <? 0) || _)%bool eqn:E1;
      [apply orb_true_iff in E1; rewrite Z.ltb_lt, Z.leb_le in E1; lia |].
    rewrite (proj2 (skip_Some _ _ _) eq_refl).
    rewrite (proj2 (getnum_fixed _ _ _)) by (eexists _, _; eauto 10).
    destruct ((num2 m1 m2 <? 0) || _)%bool eqn:E2;
      [apply orb_true_iff in E2; rewrite Z.ltb_lt, Z.leb_le in E2; lia |].
    reflexivity.
Qed.

Lemma Parse_date_calendarDate (s : string) :
  is_Some (Parse layoutDate s) <-> calendarDate s.
Proof.
  unfold is_Some, calendarDate. setoid_rewrite Parse_date. split.
  - intros (t & y1 & y2 & y3 & y4 & m1 & m2 & d1 & d2 & H).
    exists y1, y2, y3, y4, m1, m2, d1, d2. tauto.
  - intros (y1 & y2 & y3 & y4 & m1 & m2 & d1 & d2 & H).
    eexists _, y1, y2, y3, y4, m1, m2, d1, d2.
    repeat split; try apply H.
Qed.

Lemma Parse_clock_clockTime (s : string) :
  is_Some (Parse layoutClock s) <-> clockTime s.
Proof.
  unfold is_Some, clockTime. setoid_rewrite Parse_clock. split.
  - intros (t & h & hs & m1 & m2 & H). exists h, hs, m1, m2. tauto.
  - intros (h & hs & m1 & m2 & H). eexists _, h, hs, m1, m2.
    repeat split; try apply H.
Qed.

End TimeFacts.

(** ** The patterns, as classes of strings *)

Module PatternFacts.
Import Regexp Patterns RegexpFacts.

Lemma retailer_match (s : string) :
  MatchString retailerRegExp s = true <-> ofClass retailerClass s.
Proof. apply MatchString_plus_class. Qed.

Lemma shortDescription_match (s : string) :
  MatchString shortDescriptionRegExp s = true <-> ofClass shortDescriptionClass s.
Proof. apply MatchString_plus_class. Qed.

Lemma id_match (s : string) :
  MatchString idRegExp s = true <-> ofClass Char.nonspace s.
Proof. apply MatchString_plus_class. Qed.

Lemma byte_eq (k : N) (c : ascii) :
  Char.byte (Z.of_N k) c = true -> c = ascii_of_N k.
Proof.
  unfold Char.byte, Char.code. rewrite Z.eqb_eq. intros H%N2Z.inj.
  now rewrite <- H, ascii_N_embedding.
Qed.

Lemma lang_eps_inv (s : string) : lang Eps s -> s = "".
Proof. now inversion 1. Qed.

Lemma lang_seq_inv (r1 r2 : regex) (s : string) :
  lang (Seq r1 r2) s ->
  exists s1 s2, s = (s1 ++ s2)%string /\ lang r1 s1 /\ lang r2 s2.
Proof. inversion 1; subst; eauto. Qed.

Lemma price_match (s : string) :
  MatchString priceRegExp s = true <-> priceShape s.
Proof.
  rewrite MatchString_lang. unfold priceRegExp, priceShape. cbn [Repeat]. split.
  - intros (ds & s2 & -> & Hds & H)%lang_seq_inv.
    apply MatchString_lang, MatchString_plus_class in Hds.
    apply lang_seq_inv in H as (p & s3 & -> & (c & -> & Hc)%lang_class_inv & H).
    apply lang_seq_inv in H as (a' & s4 & -> & (a & -> & Ha)%lang_class_inv & H).
    apply lang_seq_inv in H as (b' & s5 & -> & (b & -> & Hb)%lang_class_inv & ->%lang_eps_inv).
    apply (byte_eq 46) in Hc as ->.
    exists ds, a, b. repeat split; auto; apply Hds.
  - intros (ds & a & b & -> & Hds & Ha & Hb).
    constructor; [now apply MatchString_lang, MatchString_plus_class |].
    change (String "." (String a (String b "")))
      with (String "." "" ++ (String a "" ++ (String b "" ++ "")))%string.
    repeat constructor; auto.
Qed.

(** A boolean test and the property it decides, both ways. *)
Lemma match_false (r : regex) (s : string) (P : Prop) :
  (MatchString r s = true <-> P) -> (MatchString r s = false <-> ~ P).
Proof.
  intros H. rewrite <- H. destruct (MatchString r s); split; congruence.
Qed.

End PatternFacts.

(** ** The validator *)

Module ValidateFacts.
Import Regexp Patterns RegexpFacts PatternFacts.

Lemma checkItem_None (item : ItemStruct) :
  checkItem item = None <-> wellFormedItem item.
Proof.
  unfold checkItem, wellFormedItem.
  destruct item as [[d |] [p |]]; cbn [ShortDescription Price];
    try (split; [discriminate | now intros (? & ? & ? & ? & _)]).
  pose proof (shortDescription_match d) as Hd.
  pose proof (price_match p) as Hp.
  destruct (MatchString shortDescriptionRegExp d) eqn:Ed,
           (MatchString priceRegExp p) eqn:Ep; cbn [negb]; split;
    try discriminate; try reflexivity.
  - intros _. exists d, p. tauto.
  - intros (? & ? & [= <-] & [= <-] & H1 & H2). now apply Hp in H2.
  - intros (? & ? & [= <-] & [= <-] & H1 & H2). now apply Hd in H1.
  - intros (? & ? & [= <-] & [= <-] & H1 & H2). now apply Hd in H1.
Qed.

Lemma checkItem_printed (item : ItemStruct) (line : string) :
  checkItem item = Some line -> In line (printedBy ItemsWellFormed).
Proof.
  unfold checkItem.
  destruct (ShortDescription item), (Price item);
    repeat match goal with
           | |- context [if ?b then _ else _] => destruct b
           end;
    intros [= <-]; cbn; auto.
Qed.

Lemma checkItems_None (items : list ItemStruct) :
  checkItems items = None <-> Forall wellFormedItem items.
Proof.
  induction items as [| item rest IH]; cbn [checkItems].
  - split; auto.
  - rewrite Forall_cons_iff, <- IH, <- checkItem_None.
    destruct (checkItem item); split; try tauto; try discriminate.
Qed.

Lemma checkItems_printed (items : list ItemStruct) (line : string) :
  checkItems items = Some line -> In line (printedBy ItemsWellFormed).
Proof.
  induction items as [| item rest IH]; cbn [checkItems]; [discriminate |].
  destruct (checkItem item) eqn:E; [| exact IH].
  intros [= <-]. eapply checkItem_printed, E.
Qed.

Lemma holds_FieldsPresent (decoded : option ReceiptStruct) :
  holds FieldsPresent decoded <->
  exists retailer d t items total, decoded = present retailer d t items total.
Proof.
  unfold holds, fieldsPresent, present, is_Some. split.
  - intros ([r d t i tot] & -> & (? & E1) & (? & E2) & (? & E3) & (? & E4) & (? & E5)).
    cbn in *. subst. eauto 10.
  - intros (r & d & t & i & tot & ->). eexists. split; [reflexivity |].
    cbn. eauto 10.
Qed.

Section Present.
Variables (retailer d t : string) (items : list ItemStruct) (total : string).

Let decoded := present retailer d t items total.

Lemma holds_RetailerPattern :
  holds RetailerPattern decoded <-> MatchString retailerRegExp retailer = true.
Proof.
  rewrite retailer_match. unfold holds, decoded, present. split.
  - intros H. now apply (H _ _ eq_refl).
  - now intros H ? ? [= <-] [= <-].
Qed.

Lemma holds_PurchaseDateParses :
  holds PurchaseDateParses decoded <-> is_Some (Time.Parse Time.layoutDate d).
Proof.
  rewrite TimeFacts.Parse_date_calendarDate. unfold holds, decoded, present. split.
  - intros H. now apply (H _ _ eq_refl).
  - now intros H ? ? [= <-] [= <-].
Qed.

Lemma holds_PurchaseTimeParses :
  holds PurchaseTimeParses decoded <-> is_Some (Time.Parse Time.layoutClock t).
Proof.
  rewrite TimeFacts.Parse_clock_clockTime. unfold holds, decoded, present. split.
  - intros H. now apply (H _ _ eq_refl).
  - now intros H ? ? [= <-] [= <-].
Qed.

Lemma holds_ItemsNonEmpty :
  holds ItemsNonEmpty decoded <-> (length items <? 1)%nat = false.
Proof.
  unfold holds, decoded, present. rewrite Nat.ltb_ge. split.
  - intros H. specialize (H _ _ eq_refl eq_refl).
    destruct items; [congruence | cbn; lia].
  - intros H ? ? [= <-] [= <-]. destruct items; [cbn in H; lia | discriminate].
Qed.

Lemma holds_ItemsWellFormed :
  holds ItemsWellFormed decoded <-> checkItems items = None.
Proof.
  rewrite checkItems_None. unfold holds, decoded, present. split.
  - intros H. now apply (H _ _ eq_refl).
  - now intros H ? ? [= <-] [= <-].
Qed.

End Present.

(** The positions of a check in the order. *)
Lemma checkOrder_split (before after : list check) (c : check) :
  checkOrder = (before ++ c :: after)%list ->
  (c = FieldsPresent /\ before = [])
  \/ (c = RetailerPattern /\ before = [FieldsPresent])
  \/ (c = PurchaseDateParses /\ before = [FieldsPresent; RetailerPattern])
  \/ (c = PurchaseTimeParses
      /\ before = [FieldsPresent; RetailerPattern; PurchaseDateParses])
  \/ (c = ItemsNonEmpty
      /\ before = [FieldsPresent; RetailerPattern; PurchaseDateParses;
                   PurchaseTimeParses])
  \/ (c = ItemsWellFormed
      /\ before = [FieldsPresent; RetailerPattern; PurchaseDateParses;
                   PurchaseTimeParses; ItemsNonEmpty]).
Proof.
  unfold checkOrder. intros H.
  repeat (destruct before as [| ? before];
          [injection H as <-; intros; subst; tauto
          | injection H as <- H]).
  destruct before; discriminate H.
Qed.

Lemma is_Some_None {A : Type} (o : option A) : ~ is_Some o -> o = None.
Proof. destruct o; [intros []; eauto | reflexivity]. Qed.

Ltac run_validate := unfold validate, present; cbn beta iota.

(** The validator prints the line of the first check that fails. *)
Lemma validate_first (decoded : option ReceiptStruct)
      (before after : list check) (c : check) :
  checkOrder = (before ++ c :: after)%list ->
  Forall (fun c' => holds c' decoded) before ->
  ~ holds c decoded ->
  exists line, In line (printedBy c) /\ validate decoded = Some line.
Proof.
  intros Hsplit Hbefore Hc.
  apply checkOrder_split in Hsplit
    as [[-> ->] | [[-> ->] | [[-> ->] | [[-> ->] | [[-> ->] | [-> ->]]]]]].
  - exists "Invalid receipt: missing fields". split; [cbn; auto |].
    rewrite holds_FieldsPresent in Hc. unfold present in Hc.
    destruct decoded as [[[r |] [d |] [t |] [i |] [tot |]] |]; try reflexivity.
    exfalso. eauto 10.
  - rewrite !Forall_cons_iff in Hbefore.
    destruct Hbefore as ((r & d & t & i & tot & ->)%holds_FieldsPresent & _).
    rewrite holds_RetailerPattern in Hc. apply not_true_is_false in Hc.
    exists "Invalid receipt: invalid retailer". split; [cbn; auto |].
    run_validate. now rewrite Hc.
  - rewrite !Forall_cons_iff in Hbefore.
    destruct Hbefore as ((r & d & t & i & tot & ->)%holds_FieldsPresent
                         & Hr%holds_RetailerPattern & _).
    rewrite holds_PurchaseDateParses in Hc. apply is_Some_None in Hc.
    exists "Invalid receipt: invalid purchase date". split; [cbn; auto |].
    run_validate. rewrite Hr. cbn [negb]. now rewrite Hc.
  - rewrite !Forall_cons_iff in Hbefore.
    destruct Hbefore as ((r & d & t & i & tot & ->)%holds_FieldsPresent
                         & Hr%holds_RetailerPattern
                         & [? Hd]%holds_PurchaseDateParses & _).
    rewrite holds_PurchaseTimeParses in Hc. apply is_Some_None in Hc.
    exists "Invalid receipt: invalid purchase time". split; [cbn; auto |].
    run_validate. rewrite Hr. cbn [negb]. now rewrite Hd, Hc.
  - rewrite !Forall_cons_iff in Hbefore.
    destruct Hbefore as ((r & d & t & i & tot & ->)%holds_FieldsPresent
                         & Hr%holds_RetailerPattern
                         & [? Hd]%holds_PurchaseDateParses
                         & [? Ht]%holds_PurchaseTimeParses & _).
    rewrite holds_ItemsNonEmpty in Hc. apply not_false_is_true in Hc.
    exists "Invalid receipt: no items". split; [cbn; auto |].
    run_validate. rewrite Hr. cbn [negb]. now rewrite Hd, Ht, Hc.
  - rewrite !Forall_cons_iff in Hbefore.
    destruct Hbefore as ((r & d & t & i & tot & ->)%holds_FieldsPresent
                         & Hr%holds_RetailerPattern
                         & [? Hd]%holds_PurchaseDateParses
                         & [? Ht]%holds_PurchaseTimeParses
                         & Hn%holds_ItemsNonEmpty & _).
    rewrite holds_ItemsWellFormed in Hc.
    destruct (checkItems i) as [line |] eqn:Ei; [| congruence].
    exists line. split; [eapply checkItems_printed, Ei |].
    run_validate. rewrite Hr. cbn [negb]. now rewrite Hd, Ht, Hn.
Qed.

(** The validator lets a receipt through when every check holds, and only
    then. *)
Lemma validate_None (decoded : option ReceiptStruct) :
  validate decoded = None <-> Forall (fun c => holds c decoded) checkOrder.
Proof.
  unfold checkOrder. rewrite !Forall_cons_iff. split.
  - intros H.
    destruct decoded as [[[r |] [d |] [t |] [i |] [tot |]] |]; try discriminate.
    change (Some _) with (present r d t i tot) in *.
    rewrite holds_RetailerPattern, holds_PurchaseDateParses,
      holds_PurchaseTimeParses, holds_ItemsNonEmpty, holds_ItemsWellFormed.
    unfold validate, present in H. cbn beta iota in H.
    destruct (MatchString retailerRegExp r); [cbn [negb] in H | discriminate].
    destruct (Time.Parse Time.layoutDate d); [| discriminate].
    destruct (Time.Parse Time.layoutClock t); [| discriminate].
    destruct (length i <? 1)%nat; [discriminate |].
    repeat split; eauto. apply holds_FieldsPresent. eauto 10.
  - intros ((r & d & t & i & tot & ->)%holds_FieldsPresent & Hr & Hd & Ht & Hn & Hi & _).
    rewrite holds_RetailerPattern in Hr. rewrite holds_PurchaseDateParses in Hd.
    rewrite holds_PurchaseTimeParses in Ht. rewrite holds_ItemsNonEmpty in Hn.
    rewrite holds_ItemsWellFormed in Hi.
    destruct Hd as [? Hd], Ht as [? Ht].
    run_validate. rewrite Hr. cbn [negb]. now rewrite Hd, Ht, Hn.
Qed.

End ValidateFacts.

(** ** The handlers *)

Module HandlerFacts.
Import Regexp Patterns RegexpFacts PatternFacts ValidateFacts.

(** [processReceipt] on a [POST]: the validator decides, and a receipt that
    passes is stored under the first identifier not in the map. *)
Lemma processReceipt_POST (receipts : Store) (uuids : list string) (r : Request) :
  Method r = "POST" ->
  processReceipt receipts uuids r =
  match validate (Decoded r), Decoded r with
  | Some line, _ => Some (rejected line receipts uuids)
  | None, Some rs =>
      match newId receipts uuids with
      | Some (id, rest) =>
          Some (mkHandled (mkResponse StatusOK (ReceiptIDResponse id) None)
                          (<[id := rs]> receipts) rest)
      | None => None
      end
  | None, None => None
  end.
Proof.
  intros HM. unfold processReceipt, validate, rejected. rewrite HM.
  cbn [String.eqb Ascii.eqb Bool.eqb negb].
  destruct (Decoded r) as [[[retailer |] [d |] [t |] [items |] [total |]] |];
    try reflexivity.
  destruct (MatchString retailerRegExp retailer); cbn [negb]; [| reflexivity].
  destruct (Time.Parse Time.layoutDate d); [| reflexivity].
  destruct (Time.Parse Time.layoutClock t); [| reflexivity].
  destruct (length items <? 1)%nat; [reflexivity |].
  destruct (checkItems items); reflexivity.
Qed.

(** A handler called with another method leaves everything as it was. *)
Lemma processReceipt_other_method (receipts : Store) (uuids : list string) (r : Request) :
  Method r <> "POST" ->
  processReceipt receipts uuids r = Some (mkHandled methodNotAllowed receipts uuids).
Proof.
  intros HM. unfold processReceipt.
  destruct (String.eqb (Method r) "POST") eqn:E; [| reflexivity].
  now apply String.eqb_eq in E.
Qed.

Lemma newId_fresh (receipts : Store) (uuids rest : list string) (id : string) :
  newId receipts uuids = Some (id, rest) -> receipts !! id = None.
Proof.
  induction uuids as [| u uuids IH]; cbn [newId]; [discriminate |].
  unfold wasReceiptProcessed.
  destruct (receipts !! u) eqn:E; [exact IH |].
  now intros [= <- <-].
Qed.

(** A receipt is stored only when it passed the validator. *)
Lemma processReceipt_stores (receipts : Store) (uuids : list string)
      (r : Request) (h : Handled) :
  processReceipt receipts uuids r = Some h ->
  receipts' h = receipts
  \/ exists id rs, receipts !! id = None /\ validate (Some rs) = None
                   /\ receipts' h = <[id := rs]> receipts.
Proof.
  destruct (String.eqb (Method r) "POST") eqn:HM.
  - apply String.eqb_eq in HM. rewrite processReceipt_POST by assumption.
    destruct (validate (Decoded r)) as [line |] eqn:Ev.
    + intros [= <-]. now left.
    + destruct (Decoded r) as [rs |]; [| discriminate].
      destruct (newId receipts uuids) as [[id rest] |] eqn:En; [| discriminate].
      intros [= <-]. right. exists id, rs.
      repeat split; [eapply newId_fresh, En | assumption].
  - rewrite processReceipt_other_method
      by (intros E; rewrite E in HM; discriminate).
    intros [= <-]. now left.
Qed.

Lemma storeValid_empty : storeValid ∅.
Proof. intros id rs H. now rewrite lookup_empty in H. Qed.

Lemma storeValid_insert (receipts : Store) (id : string) (rs : ReceiptStruct) :
  storeValid receipts -> validate (Some rs) = None ->
  storeValid (<[id := rs]> receipts).
Proof.
  intros Hst Hrs id' rs' H.
  destruct (decide (id = id')) as [<- | Hne].
  - rewrite lookup_insert_eq in H. now injection H as <-.
  - rewrite lookup_insert_ne in H by assumption. eapply Hst, H.
Qed.

(** Every receipt of a reachable store passed the validator. *)
Lemma reachable_storeValid (receipts : Store) :
  reachable receipts -> storeValid receipts.
Proof.
  induction 1 as [| receipts uuids r h _ IH Hp]; [apply storeValid_empty |].
  apply processReceipt_stores in Hp as [-> | (id & rs & _ & Hv & ->)];
    [assumption | now apply storeValid_insert].
Qed.

(** *** Scoring *)

Lemma itemPoints_fields (item : ItemStruct) (description price : string) (points : Z) :
  ShortDescription item = Some description -> Price item = Some price ->
  itemPoints item points =
  Some (if Z.rem (Strings.len (Strings.TrimSpace description)) 3 =? 0
        then Float64.wrap64 (points + priceAward price) else points).
Proof.
  intros Hd Hp. unfold itemPoints. rewrite Hd, Hp. cbn.
  now destruct (_ =? 0).
Qed.

Lemma wellFormedItem_fields (item : ItemStruct) :
  wellFormedItem item ->
  exists description price,
    ShortDescription item = Some description /\ Price item = Some price.
Proof. intros (d & p & ? & ? & _). eauto. Qed.

Lemma itemsPoints_total (items : list ItemStruct) :
  Forall wellFormedItem items ->
  forall points, is_Some (itemsPoints items points).
Proof.
  induction 1 as [| item rest (d & p & Hd & Hp)%wellFormedItem_fields _ IH];
    intros points; cbn [itemsPoints]; [eauto |].
  rewrite (itemPoints_fields item d p points Hd Hp). cbn. apply IH.
Qed.

(** Scoring a receipt that passed the validator dereferences no [nil]. *)
Lemma receiptPoints_total (rs : ReceiptStruct) :
  validate (Some rs) = None -> is_Some (receiptPoints (Some rs)).
Proof.
  intros Hv. pose proof Hv as Hall. apply validate_None in Hall.
  unfold checkOrder in Hall. rewrite !Forall_cons_iff in Hall.
  destruct Hall as ((r & d & t & i & tot & E)%holds_FieldsPresent & _).
  unfold present in E. injection E as ->.
  unfold validate in Hv. cbn beta iota in Hv.
  destruct (MatchString retailerRegExp r); [cbn [negb] in Hv | discriminate].
  destruct (Time.Parse Time.layoutDate d); [| discriminate].
  destruct (Time.Parse Time.layoutClock t); [| discriminate].
  destruct (length i <? 1)%nat; [discriminate |].
  apply checkItems_None in Hv.
  unfold receiptPoints. cbn.
  match goal with
  | |- context [itemsPoints i ?p] =>
      destruct (itemsPoints_total i Hv p) as [q ->]
  end.
  cbn. eauto.
Qed.

Lemma newId_finds (receipts : Store) (uuids : list string) :
  (exists id, In id uuids /\ receipts !! id = None) ->
  exists id rest, newId receipts uuids = Some (id, rest).
Proof.
  induction uuids as [| u uuids IH]; intros (id & Hin & Hid); [destruct Hin |].
  cbn [newId]. unfold wasReceiptProcessed.
  destruct (receipts !! u) eqn:E; [| eauto].
  destruct Hin as [-> | Hin]; [congruence | eauto].
Qed.

(** *** The strings of a stored receipt are ASCII *)

Lemma allBytes_impl (f g : ascii -> bool) (s : string) :
  (forall c, f c = true -> g c = true) ->
  allBytes f s = true -> allBytes g s = true.
Proof.
  intros Hfg. induction s as [| c s IH]; cbn [allBytes]; [reflexivity |].
  rewrite !andb_true_iff. intros [Hc Hs]. auto.
Qed.

Lemma retailerClass_ascii (c : ascii) : retailerClass c = true -> isASCII c = true.
Proof.
  unfold retailerClass, Char.word, Char.space, Char.isAlpha, Char.isDigit,
    Char.isUpper, Char.isLower, Char.between, Char.byte, isASCII.
  rewrite !orb_true_iff, !andb_true_iff, !Z.leb_le, !Z.eqb_eq, Z.ltb_lt. lia.
Qed.

Lemma shortDescriptionClass_ascii (c : ascii) :
  shortDescriptionClass c = true -> isASCII c = true.
Proof.
  unfold shortDescriptionClass, Char.word, Char.space, Char.isAlpha, Char.isDigit,
    Char.isUpper, Char.isLower, Char.between, Char.byte, isASCII.
  rewrite !orb_true_iff, !andb_true_iff, !Z.leb_le, !Z.eqb_eq, Z.ltb_lt. lia.
Qed.

(** The retailer and the descriptions of a stored receipt hold ASCII bytes
    only: the strings [unicode.IsLetter], [unicode.IsDigit] and
    [strings.TrimSpace] are applied to. *)
Lemma stored_strings_ascii (receipts : Store) (id : string) (rs : ReceiptStruct) :
  reachable receipts -> receipts !! id = Some rs ->
  (forall retailer, Retailer rs = Some retailer -> allBytes isASCII retailer = true)
  /\ (forall items item description,
        Items rs = Some items -> In item items ->
        ShortDescription item = Some description ->
        allBytes isASCII description = true).
Proof.
  intros Hr%reachable_storeValid Hid. specialize (Hr id rs Hid).
  apply validate_None in Hr. unfold checkOrder in Hr.
  rewrite !Forall_cons_iff in Hr.
  destruct Hr as (_ & Hret & _ & _ & _ & Hwf & _). split.
  - intros retailer E. destruct (Hret rs retailer eq_refl E) as [_ H].
    eapply allBytes_impl, H. apply retailerClass_ascii.
  - intros items item description Ei Hin Ed.
    specialize (Hwf rs items eq_refl Ei). rewrite List.Forall_forall in Hwf.
    destruct (Hwf item Hin) as (d & p & Hd & _ & [_ H] & _).
    rewrite Ed in Hd. injection Hd as <-.
    eapply allBytes_impl, H. apply shortDescriptionClass_ascii.
Qed.


(** The store after one receipt that passes the validator was submitted. *)
Lemma reachable_storeOf (rs : ReceiptStruct) :
  validate (Some rs) = None -> reachable (Scenario.storeOf rs).
Proof.
  intros Hv.
  apply (reachable_process ∅ [Scenario.uuid] (submit rs)
           (mkHandled (mkResponse StatusOK (ReceiptIDResponse Scenario.uuid) None)
                      (Scenario.storeOf rs) [])); [constructor |].
  rewrite processReceipt_POST by reflexivity. cbn [submit Decoded].
  now rewrite Hv.
Defined.

End HandlerFacts.

(** ** [ParseFloat] on the strings of the price shape *)

Module StrconvFacts.
Import Strconv RegexpFacts.

Lemma digit_code (c : ascii) :
  Char.isDigit c = true -> 48 <= Char.code c <= 57.
Proof.
  unfold Char.isDigit, Char.between. rewrite andb_true_iff, !Z.leb_le. tauto.
Qed.

Lemma digit_not_byte (k : Z) (c : ascii) :
  Char.isDigit c = true -> k < 48 \/ 57 < k -> Char.byte k c = false.
Proof.
  intros H%digit_code Hk. unfold Char.byte. apply Z.eqb_neq. lia.
Qed.

Lemma digit_lower (c : ascii) :
  Char.isDigit c = true -> Char.lower c = Char.code c.
Proof.
  intros H%digit_code. unfold Char.lower.
  assert (Hc : Char.code c = 48 \/ Char.code c = 49 \/ Char.code c = 50
               \/ Char.code c = 51 \/ Char.code c = 52 \/ Char.code c = 53
               \/ Char.code c = 54 \/ Char.code c = 55 \/ Char.code c = 56
               \/ Char.code c = 57) by lia.
  repeat (destruct Hc as [-> | Hc]); try rewrite Hc; reflexivity.
Qed.

Lemma digitsValue_app (s1 s2 : string) :
  forall acc, digitsValue (s1 ++ s2) acc = digitsValue s2 (digitsValue s1 acc).
Proof.
  induction s1 as [| c s1 IH]; intros acc; [reflexivity |].
  rewrite append_cons. cbn [digitsValue]. apply IH.
Qed.

(** A string that starts with a digit is no special value. *)
Lemma special_digit (c : ascii) (s : string) :
  Char.isDigit c = true -> special (String c s) = None.
Proof.
  intros H. unfold special.
  now rewrite !(digit_not_byte _ c H) by lia.
Qed.

(** The mantissa loop reads a run of digits into the mantissa. *)
Lemma readDigits_run (ds rest : string) :
  allBytes Char.isDigit ds = true ->
  forall m sg,
    readDigits false (ds ++ rest) (mkDigits m 0 false sg false)
    = readDigits false rest
        (mkDigits (digitsValue ds m) 0 false
                  (match ds with EmptyString => sg | _ => true end) false).
Proof.
  induction ds as [| c ds IH]; intros Hds m sg; [reflexivity |].
  cbn [allBytes] in Hds. apply andb_true_iff in Hds as [Hc Hds].
  rewrite append_cons. cbn [readDigits digitsValue].
  rewrite !(digit_not_byte _ c Hc) by lia. rewrite Hc.
  unfold pushDigit. cbn [mant fracDigits sawdot sawdigits underscores].
  rewrite (IH Hds). now destruct ds.
Qed.

(** What [readFloat] reads of a string of the price shape. *)
Lemma readFloat_price (ds : string) (a b : ascii) :
  ofClass Char.digit ds -> Char.digit a = true -> Char.digit b = true ->
  readFloat (ds ++ String "." (String a (String b "")))
  = Some (mkReading false false
            (digitsValue (ds ++ String "." (String a (String b ""))) 0)
            (- 2) false "").
Proof.
  intros [Hne Hds] Ha Hb. unfold Char.digit in *.
  rewrite digitsValue_app. cbn [digitsValue]. rewrite Ha, Hb.
  change (Char.isDigit ".") with false. cbn beta iota.
  assert (Hrun :
             readDigits false (String "." (String a (String b "")))
               (mkDigits (digitsValue ds 0) 0 false true false)
             = (mkDigits ((digitsValue ds 0 * 10 + Char.digitVal a) * 10
                          + Char.digitVal b) 2 true true false, "")).
  { cbn [readDigits].
    change (Char.byte 95 ".") with false. change (Char.byte 46 ".") with true.
    cbn [sawdot mant fracDigits sawdigits underscores].
    rewrite !(digit_not_byte _ a Ha), !(digit_not_byte _ b Hb) by lia.
    rewrite Ha, Hb. reflexivity. }
  destruct ds as [| c0 ds']; [congruence |].
  cbn [allBytes] in Hds. apply andb_true_iff in Hds as [H0 Hds'].
  pose proof (readDigits_run (String c0 ds') (String "." (String a (String b "")))
                ltac:(cbn [allBytes]; now rewrite H0, Hds') 0 false) as Hread.
  cbn beta iota in Hread. rewrite Hrun in Hread.
  unfold readFloat. rewrite append_cons.
  rewrite !(digit_not_byte _ c0 H0) by lia.
  rewrite <- append_cons.
  assert (Hhex : basePrefix (String c0 ds' ++ String "." (String a (String b "")))
                 = (false, (String c0 ds' ++ String "." (String a (String b "")))%string)).
  { unfold basePrefix.
    destruct ds' as [| c1 ds'']; rewrite ?append_cons, ?append_nil.
    - change (Char.lower "." =? 120) with false. rewrite andb_false_r. reflexivity.
    - cbn [allBytes] in Hds'. apply andb_true_iff in Hds' as [H1 _].
      assert (E : (Char.lower c1 =? 120) = false).
      { rewrite (digit_lower c1 H1). apply digit_code in H1.
        apply Z.eqb_neq. lia. }
      destruct ds''; rewrite ?append_cons, ?append_nil, E, andb_false_r;
        reflexivity. }
  rewrite Hhex, Hread. reflexivity.
Qed.

(** On a string of the price shape [ParseFloat] returns the [float64]
    nearest to its cents over one hundred. *)
Lemma ParseFloat_price (s : string) (c : Z) :
  cents s = Some c -> ParseFloat s = Float64.ofRatio false c 100.
Proof.
  unfold cents. destruct (Regexp.MatchString Patterns.priceRegExp s) eqn:Hm;
    [| discriminate].
  intros [= <-].
  apply PatternFacts.price_match in Hm as (ds & a & b & -> & Hds & Ha & Hb).
  unfold ParseFloat.
  rewrite (readFloat_price ds a b Hds Ha Hb).
  destruct Hds as [Hne Hds]. destruct ds as [| c0 ds']; [congruence |].
  cbn [allBytes] in Hds. apply andb_true_iff in Hds as [H0 _].
  rewrite append_cons, (special_digit c0 _ H0). reflexivity.
Qed.

End StrconvFacts.

(** ** Arithmetic of the score *)

Module ScoreFacts.
Import Regexp Patterns.

Lemma wrap64_add_l (a b : Z) :
  Float64.wrap64 (Float64.wrap64 a + b) = Float64.wrap64 (a + b).
Proof.
  unfold Float64.wrap64. f_equal.
  replace ((a + 2 ^ 63) mod 2 ^ 64 - 2 ^ 63 + b + 2 ^ 63)
    with ((a + 2 ^ 63) mod 2 ^ 64 + b) by lia.
  rewrite Z.add_mod_idemp_l by (vm_compute; discriminate).
  f_equal. lia.
Qed.

Lemma wrap64_inInt64 (v : Z) : inInt64 v -> Float64.wrap64 v = v.
Proof.
  unfold inInt64, Float64.wrap64, Float64.minInt64, Float64.maxInt64.
  intros H. rewrite Z.mod_small; lia.
Qed.

Lemma awardsAgree_spec (n : nat) :
  forall c0, awardsAgree n c0 = true ->
  forall c, c0 <= c < c0 + Z.of_nat n -> awardOfCents c = exactAward c.
Proof.
  induction n as [| n IH]; intros c0 H c Hc; [lia |].
  cbn [awardsAgree] in H. apply andb_true_iff in H as [H0 H].
  destruct (Z.eq_dec c c0) as [-> | Hne]; [now apply Z.eqb_eq |].
  apply (IH (c0 + 1) H). lia.
Qed.

Lemma digitsValue_nonneg (s : string) :
  forall acc, 0 <= acc -> 0 <= digitsValue s acc.
Proof.
  induction s as [| c s IH]; intros acc Hacc; cbn [digitsValue]; [assumption |].
  apply IH. destruct (Char.isDigit c) eqn:E; [| assumption].
  apply TimeFacts.digitVal_range in E. lia.
Qed.

(** The float award is the exact one for every amount below 100.00. *)
Lemma awardsAgree_below_100 : awardsAgree (Z.to_nat 10000) 0 = true.
Proof. vm_compute. reflexivity. Qed.

End ScoreFacts.

(** ** The rules add up *)

Module RuleFacts.
Import Regexp Patterns ScoreFacts HandlerFacts.

Lemma wrap64_range (v : Z) : inInt64 (Float64.wrap64 v).
Proof.
  unfold inInt64, Float64.wrap64, Float64.minInt64, Float64.maxInt64.
  pose proof (Z.mod_pos_bound (v + 2 ^ 63) (2 ^ 64) ltac:(reflexivity)). lia.
Qed.

Lemma wrap64_idem (v : Z) : Float64.wrap64 (Float64.wrap64 v) = Float64.wrap64 v.
Proof. apply wrap64_inInt64, wrap64_range. Qed.

Lemma wrap64_add_r (a b : Z) :
  Float64.wrap64 (a + Float64.wrap64 b) = Float64.wrap64 (a + b).
Proof. now rewrite Z.add_comm, wrap64_add_l, Z.add_comm. Qed.

(** A rule that adds [k] when its test holds. *)
Lemma wrap64_rule (test : bool) (k x : Z) :
  (if test then Float64.wrap64 (Float64.wrap64 x + k) else Float64.wrap64 x)
  = Float64.wrap64 (x + (if test then k else 0)).
Proof. destruct test; [apply wrap64_add_l | now rewrite Z.add_0_r]. Qed.

Lemma retailerPoints_count (retailer : string) :
  forall x, retailerPoints retailer (Float64.wrap64 x)
            = Float64.wrap64 (x + alnumCount retailer).
Proof.
  induction retailer as [| c s IH]; intros x; cbn [retailerPoints alnumCount].
  - now rewrite Z.add_0_r.
  - rewrite (wrap64_rule _ 1 x), IH. f_equal. lia.
Qed.

Lemma itemsPoints_contributions (items : list ItemStruct) :
  Forall (fun item => is_Some (ShortDescription item) /\ is_Some (Price item)) items ->
  forall x, itemsPoints items (Float64.wrap64 x)
            = Some (Float64.wrap64 (x + contributions items)).
Proof.
  induction 1 as [| item rest [[d Hd] [p Hp]] _ IH]; intros x;
    cbn [itemsPoints contributions].
  - now rewrite Z.add_0_r.
  - rewrite (itemPoints_fields item d p _ Hd Hp). cbn [mbind option_bind].
    unfold contribution. rewrite Hd, Hp.
    rewrite (wrap64_rule _ (priceAward p) x), IH. do 2 f_equal. lia.
Qed.

(** The points of a receipt are the sum of what its rules add, reduced to
    the range of [int64]. *)
Lemma receiptPoints_ruleSum (retailer d t : string) (items : list ItemStruct)
      (total : string) :
  Forall (fun item => is_Some (ShortDescription item) /\ is_Some (Price item)) items ->
  receiptPoints (present retailer d t items total)
  = Some (Float64.wrap64 (ruleSum retailer d t items total)).
Proof.
  intros Hitems. unfold receiptPoints, present.
  cbn [mbind option_bind Retailer Total Items PurchaseDate PurchaseTime].
  cbv zeta.
  change (Float64.isZero (Float64.Mod (Strconv.ParseFloat total) one))
    with (wholeDollar total).
  change (Float64.isZero (Float64.Mod (Strconv.ParseFloat total) quarter))
    with (quarterMultiple total).
  change (negb (Z.rem (Time.Day (Time.orZero (Time.Parse Time.layoutDate d))) 2 =? 0))
    with (dayOdd d).
  change ((14 <=? Time.Hour (Time.orZero (Time.Parse Time.layoutClock t)))
          && (Time.Hour (Time.orZero (Time.Parse Time.layoutClock t)) <? 16))
    with (afternoon t).
  assert (E0 : retailerPoints retailer 0 = Float64.wrap64 (alnumCount retailer))
    by apply (retailerPoints_count retailer 0).
  rewrite !E0.
  rewrite !(wrap64_rule (wholeDollar total) 50).
  rewrite !(wrap64_rule (quarterMultiple total) 25).
  rewrite wrap64_add_l, wrap64_add_r.
  rewrite itemsPoints_contributions by assumption.
  cbn [mbind option_bind].
  rewrite !(wrap64_rule (dayOdd d) 6).
  rewrite !(wrap64_rule (afternoon t) 10).
  unfold ruleSum. do 2 f_equal.
Qed.

End RuleFacts.

(** ** The rules on exact amounts *)

Module ExactFacts.
Import Regexp Patterns RegexpFacts PatternFacts ValidateFacts HandlerFacts ScoreFacts.
Import Calendar.

Lemma totalsAgree_spec (n : nat) :
  forall c0, totalsAgree n c0 = true ->
  forall c, c0 <= c < c0 + Z.of_nat n ->
    wholeOfCents c = (c mod 100 =? 0) /\ quarterOfCents c = (c mod 25 =? 0).
Proof.
  induction n as [| n IH]; intros c0 H c Hc; [lia |].
  cbn [totalsAgree] in H. apply andb_true_iff in H as [H0 H].
  apply andb_true_iff in H0 as [Hw Hq].
  destruct (Z.eq_dec c c0) as [-> | Hne].
  - split; now apply Bool.eqb_prop.
  - apply (IH (c0 + 1) H). lia.
Qed.

(** The float tests on a total are the exact ones for every amount below
    100.00. *)
Lemma totalsAgree_below_100 : totalsAgree (Z.to_nat 10000) 0 = true.
Proof. vm_compute. reflexivity. Qed.

Lemma cents_nonneg (s : string) (c : Z) : cents s = Some c -> 0 <= c.
Proof.
  unfold cents. destruct (MatchString priceRegExp s); [| discriminate].
  intros [= <-]. apply digitsValue_nonneg. lia.
Qed.

Lemma centsOf_nonneg (s : string) : 0 <= centsOf s.
Proof.
  unfold centsOf. destruct (cents s) eqn:E; [eapply cents_nonneg, E | lia].
Qed.

Lemma total_tests_exact (total : string) :
  is_Some (cents total) -> centsOf total < 10000 ->
  wholeDollar total = (centsOf total mod 100 =? 0)
  /\ quarterMultiple total = (centsOf total mod 25 =? 0).
Proof.
  intros [c Hc] Hlt. unfold centsOf in *. rewrite Hc in *.
  unfold wholeDollar, quarterMultiple.
  rewrite (StrconvFacts.ParseFloat_price total c Hc).
  apply (totalsAgree_spec (Z.to_nat 10000) 0 totalsAgree_below_100).
  rewrite Z2Nat.id by lia. pose proof (cents_nonneg total c Hc). lia.
Qed.

Lemma priceAward_exact (price : string) :
  is_Some (cents price) -> centsOf price < 10000 ->
  priceAward price = exactAward (centsOf price).
Proof.
  intros [c Hc] Hlt. unfold centsOf in *. rewrite Hc in *.
  unfold priceAward. rewrite (StrconvFacts.ParseFloat_price price c Hc).
  apply (awardsAgree_spec (Z.to_nat 10000) 0 awardsAgree_below_100).
  rewrite Z2Nat.id by lia. pose proof (cents_nonneg price c Hc). lia.
Qed.

Lemma priceShape_cents (price : string) : priceShape price -> is_Some (cents price).
Proof.
  intros H%price_match. unfold cents. rewrite H. eauto.
Qed.

Lemma contributions_exact (items : list ItemStruct) :
  Forall wellFormedItem items ->
  Forall (fun item => forall p, Price item = Some p -> centsOf p < 10000) items ->
  contributions items = exactContributions items.
Proof.
  induction 1 as [| item rest (d & p & Hd & Hp & _ & Hshape) _ IH];
    intros Hsmall; [reflexivity |].
  apply Forall_cons_iff in Hsmall as [Hitem Hrest].
  cbn [contributions exactContributions]. rewrite (IH Hrest). f_equal.
  unfold contribution, exactContribution. rewrite Hd, Hp.
  destruct (_ =? 0); [| reflexivity].
  apply priceAward_exact; [now apply priceShape_cents | now apply Hitem].
Qed.

Lemma exactAward_range (c : Z) : 0 <= c < 10000 -> 0 <= exactAward c <= 20.
Proof.
  intros Hc. unfold exactAward. split.
  - apply Z.div_pos; lia.
  - apply Z.lt_succ_r, Z.div_lt_upper_bound; lia.
Qed.

Lemma exactContributions_range (items : list ItemStruct) :
  Forall (fun item => forall p, Price item = Some p -> centsOf p < 10000) items ->
  0 <= exactContributions items <= 20 * Z.of_nat (length items).
Proof.
  induction 1 as [| item rest Hitem _ IH]; cbn [exactContributions length]; [lia |].
  assert (0 <= exactContribution item <= 20).
  { unfold exactContribution.
    destruct (ShortDescription item), (Price item) as [p |]; try lia.
    destruct (_ =? 0); [| lia].
    apply exactAward_range. pose proof (centsOf_nonneg p).
    specialize (Hitem p eq_refl). lia. }
  lia.
Qed.

Lemma alnumCount_range (s : string) :
  0 <= alnumCount s <= Z.of_nat (String.length s).
Proof.
  induction s as [| c s IH]; cbn [alnumCount String.length]; [lia |].
  destruct (_ || _)%bool; lia.
Qed.

Lemma rem2_odd (x : Z) : negb (Z.rem x 2 =? 0) = Z.odd x.
Proof.
  rewrite <- Z.negb_even. f_equal.
  destruct (Z.even x) eqn:E.
  - apply Z.eqb_eq. apply Z.even_spec in E as [k ->].
    rewrite Z.mul_comm. apply Z.rem_mul. discriminate.
  - apply Z.eqb_neq. intros H. apply Z.rem_divide in H; [| discriminate].
    destruct H as [k ->]. rewrite Z.mul_comm, Z.even_mul in E. discriminate.
Qed.

Lemma digitsValue_num2 (a b : ascii) :
  Char.isDigit a = true -> Char.isDigit b = true ->
  digitsValue (String a (String b "")) 0 = num2 a b.
Proof. intros Ha Hb. cbn [digitsValue]. rewrite Ha, Hb. reflexivity. Qed.

(** The day of a date that parses is its last two digits. *)
Lemma dayOdd_exact (d : string) :
  is_Some (Time.Parse Time.layoutDate d) -> dayOdd d = Z.odd (dayOfDate d).
Proof.
  intros [t Ht]. unfold dayOdd. rewrite Ht. cbn [Time.orZero].
  apply TimeFacts.Parse_date in Ht
    as (y1 & y2 & y3 & y4 & m1 & m2 & d1 & d2 & -> & Hd & _ & _ & ->).
  cbn [allBytes] in Hd. repeat (apply andb_true_iff in Hd as [? Hd]).
  cbn [Time.Day]. rewrite rem2_odd. f_equal.
  unfold dayOfDate. cbn [String.substring].
  symmetry. now apply digitsValue_num2.
Qed.

(** The hour of a time that parses is the digits before its colon. *)
Lemma afternoon_exact (t : string) :
  is_Some (Time.Parse Time.layoutClock t) ->
  afternoon t = (14 <=? hourOfTime t) && (hourOfTime t <? 16).
Proof.
  intros [p Hp]. unfold afternoon. rewrite Hp. cbn [Time.orZero].
  apply TimeFacts.Parse_clock in Hp
    as (h & hs & m1 & m2 & -> & Hh & _ & _ & _ & _ & ->).
  cbn [Time.Hour].
  assert (E : hourOfTime (hs ++ String ":" (String m1 (String m2 ""))) = h).
  { unfold hourOfTime.
    destruct Hh as [(a & -> & Ha & ->) | (a & b & -> & Ha & Hb & ->)];
      rewrite ?append_cons, ?append_nil; cbn [beforeColon].
    - rewrite (StrconvFacts.digit_not_byte 58 a Ha) by lia.
      change (Char.byte 58 ":") with true.
      cbn [digitsValue]. now rewrite Ha.
    - rewrite (StrconvFacts.digit_not_byte 58 a Ha),
        (StrconvFacts.digit_not_byte 58 b Hb) by lia.
      change (Char.byte 58 ":") with true.
      now apply digitsValue_num2. }
  now rewrite E.
Qed.

(** On a receipt that passed the validator, whose total and prices are of
    the price shape and below 100.00, the rules add up to the exact score,
    which an [int64] holds. *)
Lemma ruleSum_exact (retailer d t : string) (items : list ItemStruct) (total : string) :
  validate (present retailer d t items total) = None ->
  is_Some (cents total) -> centsOf total < 10000 ->
  Forall (fun item => forall p, Price item = Some p -> centsOf p < 10000) items ->
  Z.of_nat (String.length retailer) + 23 * Z.of_nat (length items) < 2 ^ 62 ->
  ruleSum retailer d t items total = exactPoints retailer d t items total
  /\ 0 <= exactPoints retailer d t items total < 2 ^ 63.
Proof.
  intros Hv Htotal Hlt Hsmall Hsize.
  apply validate_None in Hv. unfold checkOrder in Hv.
  rewrite !Forall_cons_iff in Hv.
  destruct Hv as (_ & _ & Hd%holds_PurchaseDateParses & Ht%holds_PurchaseTimeParses
                  & _ & Hwf%holds_ItemsWellFormed & _).
  apply checkItems_None in Hwf.
  destruct (total_tests_exact total Htotal Hlt) as [Ew Eq].
  unfold ruleSum, exactPoints.
  rewrite Ew, Eq, (contributions_exact items Hwf Hsmall),
    (dayOdd_exact d Hd), (afternoon_exact t Ht).
  pose proof (alnumCount_range retailer).
  pose proof (exactContributions_range items Hsmall).
  assert (Eh : Z.quot (Z.of_nat (length items)) 2 * 5
               = 5 * (Z.of_nat (length items) / 2))
    by (rewrite Z.quot_div_nonneg by lia; lia).
  rewrite Eh.
  assert (0 <= Z.of_nat (length items) / 2 <= Z.of_nat (length items))
    by (split; [apply Z.div_pos; lia | apply Z.div_le_upper_bound; lia]).
  split; [reflexivity |].
  destruct (_ mod 100 =? 0), (_ mod 25 =? 0), (Z.odd _), (_ && _)%bool; lia.
Qed.

End ExactFacts.

(** ** The text of a [UUID] *)

Module UUIDFacts.
Import RegexpFacts.

Lemma allBytes_app (f : ascii -> bool) (s1 s2 : string) :
  allBytes f (s1 ++ s2) = allBytes f s1 && allBytes f s2.
Proof.
  induction s1 as [| c s1 IH]; [reflexivity |].
  rewrite append_cons. cbn [allBytes]. now rewrite IH, andb_assoc.
Qed.

Lemma length_app (s1 s2 : string) :
  String.length (s1 ++ s2) = (String.length s1 + String.length s2)%nat.
Proof.
  induction s1 as [| c s1 IH]; [reflexivity |].
  rewrite append_cons. cbn [String.length]. now rewrite IH.
Qed.

Lemma hexChar_nonspace (n : Z) : Char.nonspace (UUID.hexChar n) = true.
Proof.
  unfold UUID.hexChar.
  destruct (Z.to_nat n) as [| k]; [reflexivity |].
  do 16 (destruct k as [| k]; [reflexivity |]). reflexivity.
Qed.

Lemma hexEncode_nonspace (src : list ascii) :
  allBytes Char.nonspace (UUID.hexEncode src) = true.
Proof.
  induction src as [| v rest IH]; [reflexivity |].
  cbn [UUID.hexEncode allBytes]. now rewrite !hexChar_nonspace, IH.
Qed.

Lemma hexEncode_length (src : list ascii) :
  String.length (UUID.hexEncode src) = (2 * length src)%nat.
Proof.
  induction src as [| v rest IH]; [reflexivity |].
  cbn [UUID.hexEncode String.length length]. rewrite IH. lia.
Qed.

(** The text of a [UUID] is not empty and holds no white space. *)
Lemma String_nonspace (uuid : list ascii) :
  ofClass Char.nonspace (UUID.String uuid).
Proof.
  unfold UUID.String. split.
  - intros H. apply (f_equal String.length) in H.
    rewrite !length_app in H. cbn [String.length] in H. lia.
  - rewrite !allBytes_app, !hexEncode_nonspace. reflexivity.
Qed.

Lemma update_length (i : nat) (f : Z -> Z) (uuid : list ascii) :
  length (UUID.update i f uuid) = length uuid.
Proof.
  revert i. induction uuid as [| v rest IH]; intros [| i];
    cbn [UUID.update length]; auto.
Qed.

Lemma New_length (random : list ascii) :
  length (UUID.New random) = length random.
Proof. unfold UUID.New. now rewrite !update_length. Qed.

(** The text of a [UUID] is 36 bytes long. *)
Lemma String_length (uuid : list ascii) :
  length uuid = 16%nat -> String.length (UUID.String uuid) = 36%nat.
Proof.
  intros H. unfold UUID.String, UUID.slice.
  rewrite !length_app, !hexEncode_length, !length_firstn, !length_skipn, H.
  reflexivity.
Qed.

Lemma drawn_In (randoms : list (list ascii)) (id : string) :
  In id (drawn randoms) ->
  exists random, In random randoms /\ id = UUID.String (UUID.New random).
Proof.
  unfold drawn. rewrite in_map_iff. intros (random & <- & H). eauto.
Qed.

End UUIDFacts.

(** ** Runs *)

Module RunFacts.
Import Regexp Patterns RegexpFacts PatternFacts ValidateFacts HandlerFacts.

Lemma newId_In (receipts : Store) (uuids rest : list string) (id : string) :
  newId receipts uuids = Some (id, rest) -> In id uuids.
Proof.
  induction uuids as [| u uuids IH]; cbn [newId]; [discriminate |].
  destruct (wasReceiptProcessed receipts u).
  - intros H. right. now apply IH.
  - intros [= <- <-]. now left.
Qed.

(** What a response that carries an identifier tells of the call. *)
Lemma processReceipt_issued (receipts : Store) (uuids : list string)
      (r : Request) (h : Handled) (id : string) :
  processReceipt receipts uuids r = Some h ->
  Content (response h) = ReceiptIDResponse id ->
  Method r = "POST"
  /\ exists rs rest,
      Decoded r = Some rs /\ validate (Some rs) = None
      /\ newId receipts uuids = Some (id, rest)
      /\ h = mkHandled (mkResponse StatusOK (ReceiptIDResponse id) None)
                       (<[id := rs]> receipts) rest.
Proof.
  destruct (String.eqb (Method r) "POST") eqn:HM.
  - apply String.eqb_eq in HM. rewrite processReceipt_POST by assumption.
    destruct (validate (Decoded r)) as [line |] eqn:Hv.
    + intros [= <-]. discriminate.
    + destruct (Decoded r) as [rs |]; [| discriminate].
      destruct (newId receipts uuids) as [[id' rest] |] eqn:En; [| discriminate].
      intros [= <-]. cbn. intros [= <-]. split; [assumption |]. eauto 10.
  - rewrite processReceipt_other_method
      by (intros E; rewrite E in HM; discriminate).
    intros [= <-]. discriminate.
Qed.

(** What any other response tells: nothing was drawn or stored. *)
Lemma processReceipt_not_issued (receipts : Store) (uuids : list string)
      (r : Request) (h : Handled) :
  processReceipt receipts uuids r = Some h ->
  (forall id, Content (response h) <> ReceiptIDResponse id) ->
  receipts' h = receipts /\ uuids' h = uuids /\ Status (response h) <> StatusOK.
Proof.
  destruct (String.eqb (Method r) "POST") eqn:HM.
  - apply String.eqb_eq in HM. rewrite processReceipt_POST by assumption.
    destruct (validate (Decoded r)) as [line |] eqn:Hv.
    + intros [= <-] _. repeat split. discriminate.
    + destruct (Decoded r) as [rs |]; [| discriminate].
      destruct (newId receipts uuids) as [[id' rest] |] eqn:En; [| discriminate].
      intros [= <-] H. now destruct (H id').
  - rewrite processReceipt_other_method
      by (intros E; rewrite E in HM; discriminate).
    intros [= <-] _. repeat split. discriminate.
Qed.

Lemma Content_cases (resp : Response) :
  (exists id, Content resp = ReceiptIDResponse id)
  \/ (forall id, Content resp <> ReceiptIDResponse id).
Proof. destruct (Content resp); eauto; right; discriminate. Qed.

(** A stored receipt stays stored along a run. *)
Lemma follows_keeps (receipts later : Store) (id : string) (rs : ReceiptStruct) :
  follows receipts later -> receipts !! id = Some rs -> later !! id = Some rs.
Proof.
  induction 1 as [| later uuids r h _ IH Hp]; intros Hid; [assumption |].
  specialize (IH Hid).
  apply processReceipt_stores in Hp as [-> | (id' & rs' & Hfresh & _ & ->)];
    [assumption |].
  rewrite lookup_insert_ne; [assumption | congruence].
Qed.

Lemma follows_reachable (receipts later : Store) :
  reachable receipts -> follows receipts later -> reachable later.
Proof.
  intros Hr. induction 1 as [| later uuids r h _ IH Hp]; [assumption |].
  eapply reachable_process; eauto.
Qed.

End RunFacts.

(** * The claims *)

Module Claims.
Import Regexp Patterns RegexpFacts PatternFacts ValidateFacts HandlerFacts.
Import ScoreFacts ExactFacts.
Import Scenario.

(** C1 (as the code has it).  The handler never matches the total against
    the price pattern: receipts whose total is ["abc"], ["5.1"] or ["-3.00"],
    none of which has the decimal shape, are accepted, given an identifier
    and stored. *)
Theorem processReceipt_accepts_any_total :
  Forall (fun total =>
            MatchString priceRegExp total = false
            /\ processReceipt ∅ [uuid] (submit (withTotal total))
               = Some (mkHandled (mkResponse StatusOK (ReceiptIDResponse uuid) None)
                                 (storeOf (withTotal total)) []))
         ["abc"; "5.1"; "-3.00"].
Proof. repeat constructor. Qed.

(** C2 (as the code has it).  The total ["140737488355328.01"] is
    14073748835532801 cents, which is a multiple of neither 100 nor 25; read
    as a [float64] it is [2^47], and the receipt scores the 50 and the 25
    points on top of the 6 of its retailer. *)
Theorem receiptPoints_float_total :
  cents "140737488355328.01" = Some 14073748835532801
  /\ 14073748835532801 mod 100 = 1
  /\ 14073748835532801 mod 25 = 1
  /\ Strconv.ParseFloat "140737488355328.01" = Float64.ofScaled false (2 ^ 47) 0
  /\ submitThenQuery (withTotal "140737488355328.01")
     = Some (mkResponse StatusOK (PointsResponse (6 + 50 + 25)) None).
Proof. repeat split; vm_compute; reflexivity. Qed.




(** C4 (amended).  The handler makes its checks in the order fields present,
    retailer, purchase date, purchase time, items not empty, items well
    formed, and stops at the first that fails: the line it prints is one of
    that check.  A receipt with its five fields and no items is therefore
    reported for its items only when retailer, date and time are in order,
    and for the first of those three that is not otherwise. *)
Theorem processReceipt_fails_fast
        (receipts : Store) (uuids : list string) (r : Request)
        (before after : list check) (c : check) :
  Method r = "POST" ->
  checkOrder = (before ++ c :: after)%list ->
  Forall (fun c' => holds c' (Decoded r)) before ->
  ~ holds c (Decoded r) ->
  exists line,
    In line (printedBy c)
    /\ processReceipt receipts uuids r = Some (rejected line receipts uuids).
Proof.
  intros HM Hsplit Hbefore Hc.
  destruct (validate_first (Decoded r) before after c Hsplit Hbefore Hc)
    as (line & Hline & Hv).
  exists line. split; [assumption |].
  rewrite processReceipt_POST by assumption. now rewrite Hv.
Qed.

Lemma holds_noItems_before :
  Forall (fun c' => holds c' (Some noItems))
         [FieldsPresent; RetailerPattern; PurchaseDateParses; PurchaseTimeParses].
Proof.
  assert (E : Some noItems = present "Target" "2022-01-02" "13:01" [] "1.10")
    by reflexivity.
  rewrite E.
  rewrite !Forall_cons_iff.
  refine (conj _ (conj _ (conj _ (conj _ (List.Forall_nil _))))).
  - apply holds_FieldsPresent. eauto 10.
  - apply holds_RetailerPattern. vm_compute. reflexivity.
  - apply holds_PurchaseDateParses. vm_compute. eauto.
  - apply holds_PurchaseTimeParses. vm_compute. eauto.
Defined.

Lemma not_holds_noItems : ~ holds ItemsNonEmpty (Some noItems).
Proof. intros H. now apply (H noItems [] eq_refl eq_refl). Defined.

Lemma processReceipt_fails_fast_witness :
  Method (submit noItems) = "POST"
  /\ checkOrder
     = ([FieldsPresent; RetailerPattern; PurchaseDateParses; PurchaseTimeParses]
          ++ ItemsNonEmpty :: [ItemsWellFormed])%list
  /\ Forall (fun c' => holds c' (Decoded (submit noItems)))
            [FieldsPresent; RetailerPattern; PurchaseDateParses; PurchaseTimeParses]
  /\ ~ holds ItemsNonEmpty (Decoded (submit noItems))
  /\ exists line,
      In line (printedBy ItemsNonEmpty)
      /\ processReceipt ∅ [uuid] (submit noItems) = Some (rejected line ∅ [uuid]).
Proof.
  repeat split;
    [exact holds_noItems_before | exact not_holds_noItems |].
  exact (processReceipt_fails_fast ∅ [uuid] (submit noItems)
           [FieldsPresent; RetailerPattern; PurchaseDateParses; PurchaseTimeParses]
           [ItemsWellFormed] ItemsNonEmpty
           eq_refl eq_refl holds_noItems_before not_holds_noItems).
Defined.

(** C4 (as stated) fails: a receipt with its five fields, no items and the
    retailer ["!!!"] is reported for its retailer, not for its items. *)
Lemma processReceipt_no_items_reports_retailer :
  Items noItemsBadRetailer = Some []
  /\ processReceipt ∅ [uuid] (submit noItemsBadRetailer)
     = Some (rejected "Invalid receipt: invalid retailer" ∅ [uuid])
  /\ In "Invalid receipt: invalid retailer" (printedBy RetailerPattern)
  /\ "Invalid receipt: invalid retailer" <> "Invalid receipt: no items".
Proof. repeat split; try (vm_compute; auto; fail). discriminate. Qed.

(** C5.  The receipt of scenario A scores 28 points and the one of scenario
    B scores 109, both as stored receipts and when submitted and asked for. *)
Theorem scenario_points :
  receiptPoints (Some receiptA) = Some 28
  /\ receiptPoints (Some receiptB) = Some 109
  /\ submitThenQuery receiptA = Some (mkResponse StatusOK (PointsResponse 28) None)
  /\ submitThenQuery receiptB = Some (mkResponse StatusOK (PointsResponse 109) None).
Proof. repeat split; vm_compute; reflexivity. Qed.

(** C6.  The date check of the handler, [time.Parse("2006-01-02", s)],
    succeeds exactly when [s] is [YYYY-MM-DD] and names a day of the
    calendar; ["2023-02-30"] fails it, and a receipt of that date is
    rejected for its date. *)
Theorem date_check_calendarDate :
  (forall s, is_Some (Time.Parse Time.layoutDate s) <-> Calendar.calendarDate s)
  /\ Time.Parse Time.layoutDate "2023-02-30" = None
  /\ processReceipt ∅ [uuid] (submit badDate)
     = Some (rejected "Invalid receipt: invalid purchase date" ∅ [uuid]).
Proof.
  split; [exact TimeFacts.Parse_date_calendarDate |].
  split; vm_compute; reflexivity.
Qed.

(** C7 (amended).  A [POST] whose body fails a check the validator makes (it
    does not decode or lacks a field, the retailer has a byte outside its
    class, the date is no calendar date, the time is not an hour of one or
    two digits below 24, a colon and a minute of two digits below 60, there
    is no item, an item lacks a field or has a description or price of the
    wrong shape) is answered with status 400, and the handler leaves the map
    and the identifiers to come as they were: none is drawn, nothing is
    stored. *)
Theorem processReceipt_rejects_malformed
        (receipts : Store) (uuids : list string) (r : Request) (c : check) :
  Method r = "POST" ->
  ~ holds c (Decoded r) ->
  exists line,
    processReceipt receipts uuids r
    = Some (mkHandled (mkResponse StatusBadRequest (Text "The receipt is invalid.")
                                  (Some line))
                      receipts uuids).
Proof.
  intros HM Hc. rewrite processReceipt_POST by assumption.
  destruct (validate (Decoded r)) as [line |] eqn:Hv; [now exists line |].
  exfalso. apply Hc. apply validate_None in Hv.
  rewrite List.Forall_forall in Hv. apply Hv.
  unfold checkOrder. destruct c; simpl; tauto.
Qed.

Lemma not_holds_badDate : ~ holds PurchaseDateParses (Some badDate).
Proof.
  intros H. specialize (H badDate "2023-02-30" eq_refl eq_refl).
  apply TimeFacts.Parse_date_calendarDate in H as [t H].
  vm_compute in H. discriminate H.
Defined.

Lemma processReceipt_rejects_malformed_witness :
  Method (submit badDate) = "POST"
  /\ ~ holds PurchaseDateParses (Decoded (submit badDate))
  /\ exists line,
      processReceipt (storeOf receiptA) [uuid; "another"] (submit badDate)
      = Some (mkHandled (mkResponse StatusBadRequest (Text "The receipt is invalid.")
                                    (Some line))
                        (storeOf receiptA) [uuid; "another"]).
Proof.
  split; [reflexivity |]. split; [exact not_holds_badDate |].
  exact (processReceipt_rejects_malformed (storeOf receiptA) [uuid; "another"]
           (submit badDate) PurchaseDateParses eq_refl not_holds_badDate).
Defined.

(** C7 (as stated) fails: the time ["9:05"] is no [HH:MM] time, its hour
    having one digit, yet [time.Parse] reads it at the layout ["15:04"]; the
    receipt is answered with status 200 and an identifier, and it is
    stored. *)
Lemma processReceipt_accepts_one_digit_hour :
  ~ Calendar.twoDigitClockTime "9:05"
  /\ PurchaseTime oneDigitHour = Some "9:05"
  /\ processReceipt ∅ [uuid] (submit oneDigitHour)
     = Some (mkHandled (mkResponse StatusOK (ReceiptIDResponse uuid) None)
                       (storeOf oneDigitHour) []).
Proof.
  split; [| split; vm_compute; reflexivity].
  intros (h1 & h2 & m1 & m2 & H & _). inversion H.
Qed.

(** C8.  On a store the program can be in, asking for the points of an
    identifier succeeds, with the points of the receipt stored under it,
    exactly when the identifier is not empty, holds no white space and is a
    key of the map; otherwise the answer is status 404 with one and the same
    text, whether the identifier is malformed or absent. *)
Theorem getReceiptPoints_found_iff (receipts : Store) (id : string) :
  reachable receipts ->
  ((exists points,
       getReceiptPoints receipts (query id)
       = Some (mkResponse StatusOK (PointsResponse points) None))
   <-> ofClass Char.nonspace id /\ is_Some (receipts !! id))
  /\ (ofClass Char.nonspace id /\ is_Some (receipts !! id) ->
      exists points,
        receiptPoints (receipts !! id) = Some points
        /\ getReceiptPoints receipts (query id)
           = Some (mkResponse StatusOK (PointsResponse points) None))
  /\ (~ (ofClass Char.nonspace id /\ is_Some (receipts !! id)) ->
      exists line,
        getReceiptPoints receipts (query id)
        = Some (mkResponse StatusNotFound (Text "No receipt found for that ID.")
                           (Some line))).
Proof.
  intros Hvalid%reachable_storeValid.
  unfold getReceiptPoints, notFound. cbn [query Method PathId].
  cbn [String.eqb Ascii.eqb Bool.eqb negb].
  pose proof (id_match id) as Hid. unfold wasReceiptProcessed.
  destruct (MatchString idRegExp id); cbn [negb].
  - destruct (receipts !! id) as [rs |] eqn:Hrs; cbn [negb].
    + destruct (receiptPoints_total rs (Hvalid id rs Hrs)) as [points Hp].
      rewrite Hp. cbn.
      assert (Hc : ofClass Char.nonspace id /\ is_Some (Some rs))
        by (split; [now apply Hid | eauto]).
      split; [split; [intros _; exact Hc | intros _; eauto] |].
      split; [intros _; eauto | intros Hn; now destruct Hn].
    + assert (Hn : ~ is_Some (@None ReceiptStruct)) by (intros [? [=]]).
      split; [split; [intros [? [=]] | intros [_ H]; now destruct Hn] |].
      split; [intros [_ H]; now destruct Hn | intros _; eauto].
  - assert (Hn : ~ ofClass Char.nonspace id) by (intros H%Hid; discriminate).
    split; [split; [intros [? [=]] | intros [H _]; now destruct Hn] |].
    split; [intros [H _]; now destruct Hn | intros _; eauto].
Qed.

Lemma getReceiptPoints_found_iff_witness :
  reachable (storeOf receiptA)
  /\ ((exists points,
          getReceiptPoints (storeOf receiptA) (query uuid)
          = Some (mkResponse StatusOK (PointsResponse points) None))
      <-> ofClass Char.nonspace uuid /\ is_Some (storeOf receiptA !! uuid))
  /\ (ofClass Char.nonspace uuid /\ is_Some (storeOf receiptA !! uuid) ->
      exists points,
        receiptPoints (storeOf receiptA !! uuid) = Some points
        /\ getReceiptPoints (storeOf receiptA) (query uuid)
           = Some (mkResponse StatusOK (PointsResponse points) None))
  /\ (~ (ofClass Char.nonspace uuid /\ is_Some (storeOf receiptA !! uuid)) ->
      exists line,
        getReceiptPoints (storeOf receiptA) (query uuid)
        = Some (mkResponse StatusNotFound (Text "No receipt found for that ID.")
                           (Some line))).
Proof.
  assert (Hr : reachable (storeOf receiptA))
    by (apply reachable_storeOf; vm_compute; reflexivity).
  split; [exact Hr |].
  exact (getReceiptPoints_found_iff (storeOf receiptA) uuid Hr).
Defined.

(** C9 (as the code has it).  The receipt with two items of description
    ["abc"] and price ["40000000000000000000.00"] passes the validator; each
    item scores 8000000000000000000 points, their sum exceeds the largest
    [int64], and the points of the receipt come out negative. *)
Theorem receiptPoints_wraps_negative :
  validate (Some hugePrices) = None
  /\ priceAward "40000000000000000000.00" = 8000000000000000000
  /\ submitThenQuery hugePrices
     = Some (mkResponse StatusOK (PointsResponse (-2446744073709551605)) None)
  /\ 6 + 5 + 2 * 8000000000000000000 - 2 ^ 64 = -2446744073709551605.
Proof. repeat split; vm_compute; reflexivity. Qed.

(** C10.  A receipt in order in every other field, with an item whose
    description is three spaces and whose price is well formed, is accepted:
    the handler answers with the identifier it drew and the map holds the
    receipt under it. *)
Theorem processReceipt_accepts_blank_description :
  ofClass Char.space "   "
  /\ Items (withDescription "   ") = Some [item "   " "5.00"]
  /\ processReceipt ∅ [uuid] (submit (withDescription "   "))
     = Some (mkHandled (mkResponse StatusOK (ReceiptIDResponse uuid) None)
                       (<[uuid := withDescription "   "]> ∅) [])
  /\ (<[uuid := withDescription "   "]> ∅ : Store) !! uuid
     = Some (withDescription "   ").
Proof.
  repeat split; try (vm_compute; reflexivity). discriminate.
Qed.

End Claims.

(** * Further properties of the handlers *)

Module Further.
Import Regexp Patterns RegexpFacts PatternFacts ValidateFacts HandlerFacts ScoreFacts.
Import Scenario.

(** X1.  Every receipt of a store the program can be in passed the
    validator, and scoring it dereferences no [nil] pointer: asking for its
    points never panics. *)
Theorem stored_receipts_score
        (receipts : Store) (id : string) (rs : ReceiptStruct) :
  reachable receipts -> receipts !! id = Some rs ->
  validate (Some rs) = None /\ is_Some (receiptPoints (receipts !! id)).
Proof.
  intros Hr%reachable_storeValid Hid. rewrite Hid.
  split; [exact (Hr id rs Hid) | apply receiptPoints_total, (Hr id rs Hid)].
Qed.

Lemma stored_receipts_score_witness :
  reachable (storeOf receiptB)
  /\ storeOf receiptB !! uuid = Some receiptB
  /\ validate (Some receiptB) = None
  /\ is_Some (receiptPoints (storeOf receiptB !! uuid)).
Proof.
  assert (Hr : reachable (storeOf receiptB))
    by (apply reachable_storeOf; vm_compute; reflexivity).
  assert (Hl : storeOf receiptB !! uuid = Some receiptB) by (vm_compute; reflexivity).
  split; [exact Hr |]. split; [exact Hl |].
  exact (stored_receipts_score (storeOf receiptB) uuid receiptB Hr Hl).
Defined.

(** X2.  The map only grows: whatever [processReceipt] is called with, a
    receipt that was stored is still stored, unchanged, under its
    identifier. *)
Theorem processReceipt_keeps_stored
        (receipts : Store) (uuids : list string) (r : Request) (h : Handled)
        (id : string) (rs : ReceiptStruct) :
  processReceipt receipts uuids r = Some h ->
  receipts !! id = Some rs ->
  receipts' h !! id = Some rs.
Proof.
  intros [-> | (id' & rs' & Hfresh & _ & ->)]%processReceipt_stores Hid;
    [assumption |].
  rewrite lookup_insert_ne; [assumption | congruence].
Qed.

Lemma processReceipt_keeps_stored_witness :
  processReceipt (storeOf receiptA) [uuid; "another"] (submit receiptB)
  = Some (mkHandled (mkResponse StatusOK (ReceiptIDResponse "another") None)
                    (<["another" := receiptB]> (storeOf receiptA)) [])
  /\ storeOf receiptA !! uuid = Some receiptA
  /\ <["another" := receiptB]> (storeOf receiptA) !! uuid = Some receiptA.
Proof.
  assert (Hp : processReceipt (storeOf receiptA) [uuid; "another"] (submit receiptB)
               = Some (mkHandled (mkResponse StatusOK (ReceiptIDResponse "another") None)
                                 (<["another" := receiptB]> (storeOf receiptA)) []))
    by (vm_compute; reflexivity).
  assert (Hl : storeOf receiptA !! uuid = Some receiptA) by (vm_compute; reflexivity).
  split; [exact Hp |]. split; [exact Hl |].
  exact (processReceipt_keeps_stored (storeOf receiptA) [uuid; "another"]
           (submit receiptB) _ uuid receiptA Hp Hl).
Defined.

(** X3.  A [POST] of a receipt that passes the validator is answered as soon
    as [uuid.New] draws an identifier that is not in the map: the answer is
    status 200 with that identifier, which was free, and the map holds the
    receipt under it. *)
Theorem processReceipt_stores_valid
        (receipts : Store) (uuids : list string) (r : Request) :
  Method r = "POST" ->
  validate (Decoded r) = None ->
  (exists id, In id uuids /\ receipts !! id = None) ->
  exists h id,
    processReceipt receipts uuids r = Some h
    /\ response h = mkResponse StatusOK (ReceiptIDResponse id) None
    /\ receipts !! id = None
    /\ receipts' h !! id = Decoded r.
Proof.
  intros HM Hv (id & rest & Hn)%newId_finds.
  rewrite processReceipt_POST, Hv, Hn by assumption.
  destruct (Decoded r) as [rs |] eqn:Hd; [| discriminate Hv].
  eexists _, id. split; [reflexivity |]. cbn.
  repeat split; [eapply newId_fresh, Hn | apply lookup_insert_eq].
Qed.

Lemma processReceipt_stores_valid_witness :
  Method (submit receiptB) = "POST"
  /\ validate (Decoded (submit receiptB)) = None
  /\ (exists id, In id [uuid; "another"] /\ storeOf receiptA !! id = None)
  /\ exists h id,
      processReceipt (storeOf receiptA) [uuid; "another"] (submit receiptB) = Some h
      /\ response h = mkResponse StatusOK (ReceiptIDResponse id) None
      /\ storeOf receiptA !! id = None
      /\ receipts' h !! id = Decoded (submit receiptB).
Proof.
  assert (Hv : validate (Decoded (submit receiptB)) = None) by (vm_compute; reflexivity).
  assert (Hf : exists id, In id [uuid; "another"] /\ storeOf receiptA !! id = None)
    by (exists "another"; split; [simpl; auto | vm_compute; reflexivity]).
  split; [reflexivity |]. split; [exact Hv |]. split; [exact Hf |].
  exact (processReceipt_stores_valid (storeOf receiptA) [uuid; "another"]
           (submit receiptB) eq_refl Hv Hf).
Defined.

(** X4.  The time check of the handler, [time.Parse("15:04", s)], succeeds
    exactly when [s] is an hour of one or two digits below 24, a colon and a
    minute of two digits below 60: ["24:00"] and ["13:60"] fail it, ["9:05"]
    passes. *)
Theorem time_check_clockTime :
  (forall s, is_Some (Time.Parse Time.layoutClock s) <-> Calendar.clockTime s)
  /\ Time.Parse Time.layoutClock "24:00" = None
  /\ Time.Parse Time.layoutClock "13:60" = None
  /\ Time.Parse Time.layoutClock "9:05" = Some (Time.mkTime 0 1 1 9 5).
Proof.
  split; [exact TimeFacts.Parse_clock_clockTime |].
  repeat split; vm_compute; reflexivity.
Qed.

(** X5.  Over the items of a validated receipt, each with a description of
    the description class and a price of the price shape, the loop adds to
    the points the contribution of every item, the sum reduced to the range
    of [int64]. *)
Theorem itemsPoints_sum (items : list ItemStruct) :
  Forall wellFormedItem items ->
  forall points, inInt64 points ->
    itemsPoints items points = Some (Float64.wrap64 (points + contributions items)).
Proof.
  induction 1 as [| item rest (d & p & Hd & Hp & _) _ IH]; intros points Hpoints;
    cbn [itemsPoints contributions].
  - now rewrite Z.add_0_r, wrap64_inInt64.
  - rewrite (itemPoints_fields item d p points Hd Hp). cbn.
    unfold contribution. rewrite Hd, Hp.
    destruct (_ =? 0).
    + rewrite IH.
      * now rewrite wrap64_add_l, Z.add_assoc.
      * unfold inInt64, Float64.wrap64, Float64.minInt64, Float64.maxInt64.
        pose proof (Z.mod_pos_bound (points + priceAward p + 2 ^ 63) (2 ^ 64)
                      ltac:(reflexivity)).
        lia.
    + now rewrite IH.
Qed.

Lemma itemsPoints_sum_witness :
  Forall wellFormedItem [item "Emils Cheese Pizza" "12.25"; item "Gatorade" "2.25"]
  /\ inInt64 16
  /\ itemsPoints [item "Emils Cheese Pizza" "12.25"; item "Gatorade" "2.25"] 16
     = Some (Float64.wrap64
               (16 + contributions [item "Emils Cheese Pizza" "12.25";
                                    item "Gatorade" "2.25"])).
Proof.
  assert (Hf : Forall wellFormedItem
                      [item "Emils Cheese Pizza" "12.25"; item "Gatorade" "2.25"]).
  { refine (proj2 (Forall_cons_iff _ _ _) (conj _ (proj2 (Forall_cons_iff _ _ _)
                                                      (conj _ (List.Forall_nil _))))).
    - exists "Emils Cheese Pizza", "12.25".
      split; [reflexivity |]. split; [reflexivity |].
      split; [split; [discriminate | reflexivity] |].
      apply price_match. reflexivity.
    - exists "Gatorade", "2.25".
      split; [reflexivity |]. split; [reflexivity |].
      split; [split; [discriminate | reflexivity] |].
      apply price_match. reflexivity. }
  assert (Hi : inInt64 16) by (vm_compute; split; discriminate).
  split; [exact Hf |]. split; [exact Hi |].
  exact (itemsPoints_sum _ Hf 16 Hi).
Defined.

(** X6.  For every price of the price shape below 100.00, the points
    [int64(math.Ceil(price * 0.2))] the code computes in [float64] are the
    exact ceiling of a fifth of the price. *)
Theorem priceAward_exact_below_100 (price : string) (c : Z) :
  cents price = Some c -> c < 10000 ->
  priceAward price = exactAward c.
Proof.
  intros Hc Hlt. unfold priceAward.
  rewrite (StrconvFacts.ParseFloat_price price c Hc).
  apply (awardsAgree_spec (Z.to_nat 10000) 0); [exact awardsAgree_below_100 |].
  rewrite Z2Nat.id by lia. unfold cents in Hc.
  destruct (MatchString priceRegExp price); [| discriminate].
  injection Hc as <-. pose proof (digitsValue_nonneg price 0 ltac:(lia)). lia.
Qed.

Lemma priceAward_exact_below_100_witness :
  cents "12.25" = Some 1225 /\ 1225 < 10000
  /\ priceAward "12.25" = exactAward 1225.
Proof.
  assert (Hc : cents "12.25" = Some 1225) by (vm_compute; reflexivity).
  assert (Hl : 1225 < 10000) by lia.
  split; [exact Hc |]. split; [exact Hl |].
  exact (priceAward_exact_below_100 "12.25" 1225 Hc Hl).
Defined.

End Further.

(** * The handlers along a run, and the score rule by rule *)

Module Coverage.
Import Regexp Patterns RegexpFacts PatternFacts ValidateFacts HandlerFacts.
Import ScoreFacts RuleFacts ExactFacts UUIDFacts RunFacts.
Import Scenario.

(** X7.  The loop that draws an identifier skips exactly the identifiers
    that are keys of the map and stops at the first that is not; it is still
    running after the identifiers drawn exactly when every one of them is a
    key. *)
Theorem newId_skips_taken (receipts : Store) (uuids rest : list string) (id : string) :
  (newId receipts uuids = Some (id, rest)
   <-> exists taken,
       uuids = (taken ++ id :: rest)%list
       /\ Forall (fun u => is_Some (receipts !! u)) taken
       /\ receipts !! id = None)
  /\ (newId receipts uuids = None
      <-> Forall (fun u => is_Some (receipts !! u)) uuids).
Proof.
  split.
  - split.
    + revert id rest. induction uuids as [| u uuids IH]; intros id rest;
        cbn [newId]; [discriminate |].
      unfold wasReceiptProcessed. destruct (receipts !! u) eqn:E.
      * intros (taken & -> & Htaken & Hid)%IH.
        exists (u :: taken). repeat split; [| assumption].
        apply Forall_cons_iff. split; [rewrite E; eauto | assumption].
      * intros [= <- <-]. exists []. repeat split; [constructor | assumption].
    + intros (taken & -> & Htaken & Hid).
      induction Htaken as [| u taken [x Hu] _ IH]; cbn [app newId];
        unfold wasReceiptProcessed.
      * now rewrite Hid.
      * now rewrite Hu.
  - induction uuids as [| u uuids IH]; cbn [newId].
    + split; [constructor | reflexivity].
    + unfold wasReceiptProcessed. rewrite Forall_cons_iff.
      destruct (receipts !! u) eqn:E.
      * rewrite IH. split; [eauto | tauto].
      * split; [discriminate | intros [[? [=]] _]].
Qed.

(** X8.  A [POST] that is answered is answered with status 200 exactly
    when the decoded body passes every check: its five fields are present,
    the retailer is of its class, the date is a calendar date, the time a
    time of day, there is an item and every item is well formed.  The total
    is not looked at. *)
Theorem processReceipt_accepts_iff
        (receipts : Store) (uuids : list string) (r : Request) (h : Handled) :
  Method r = "POST" ->
  processReceipt receipts uuids r = Some h ->
  (Status (response h) = StatusOK
   <-> Forall (fun c => holds c (Decoded r)) checkOrder).
Proof.
  intros HM. rewrite processReceipt_POST by assumption.
  rewrite <- validate_None.
  destruct (validate (Decoded r)) as [line |] eqn:Hv.
  - intros [= <-]. cbn. split; discriminate.
  - destruct (Decoded r) as [rs |]; [| discriminate].
    destruct (newId receipts uuids) as [[id rest] |]; [| discriminate].
    intros [= <-]. cbn. tauto.
Qed.

Lemma processReceipt_accepts_iff_witness :
  Method (submit receiptB) = "POST"
  /\ processReceipt ∅ [uuid] (submit receiptB)
     = Some (mkHandled (mkResponse StatusOK (ReceiptIDResponse uuid) None)
                       (storeOf receiptB) [])
  /\ (Status (mkResponse StatusOK (ReceiptIDResponse uuid) None) = StatusOK
      <-> Forall (fun c => holds c (Decoded (submit receiptB))) checkOrder).
Proof.
  assert (Hp : processReceipt ∅ [uuid] (submit receiptB)
               = Some (mkHandled (mkResponse StatusOK (ReceiptIDResponse uuid) None)
                                 (storeOf receiptB) []))
    by (vm_compute; reflexivity).
  split; [reflexivity |]. split; [exact Hp |].
  exact (processReceipt_accepts_iff ∅ [uuid] (submit receiptB) _ eq_refl Hp).
Defined.

(** X9.  A handler called with another method than its own answers 405
    without reading the body or the identifier and leaves the map as it is;
    called with its own method it answers 200 or 400 ([processReceipt]),
    200 or 404 ([getReceiptPoints]). *)
Theorem handlers_method_gate (receipts : Store) (uuids : list string) (r : Request) :
  (Method r <> "POST" ->
   processReceipt receipts uuids r = Some (mkHandled methodNotAllowed receipts uuids))
  /\ (Method r = "POST" ->
      forall h, processReceipt receipts uuids r = Some h ->
                Status (response h) = StatusOK
                \/ Status (response h) = StatusBadRequest)
  /\ (Method r <> "GET" -> getReceiptPoints receipts r = Some methodNotAllowed)
  /\ (Method r = "GET" ->
      forall resp, getReceiptPoints receipts r = Some resp ->
                   Status resp = StatusOK \/ Status resp = StatusNotFound).
Proof.
  split; [apply processReceipt_other_method |]. split.
  - intros HM h. rewrite processReceipt_POST by assumption.
    destruct (validate (Decoded r)); [intros [= <-]; now right |].
    destruct (Decoded r); [| discriminate].
    destruct (newId receipts uuids) as [[id rest] |]; [| discriminate].
    intros [= <-]. now left.
  - unfold getReceiptPoints. split.
    + intros HM. destruct (String.eqb (Method r) "GET") eqn:E; [| reflexivity].
      now apply String.eqb_eq in E.
    + intros -> resp. cbn [String.eqb Ascii.eqb Bool.eqb negb].
      destruct (MatchString idRegExp (PathId r)); cbn [negb];
        [| intros [= <-]; now right].
      destruct (wasReceiptProcessed receipts (PathId r)); cbn [negb];
        [| intros [= <-]; now right].
      destruct (receiptPoints (receipts !! PathId r)); [| discriminate].
      intros [= <-]. now left.
Qed.

(** X10.  A call of [processReceipt] that answers 200 adds exactly one
    entry to the map; any other call leaves the map as it is. *)
Theorem processReceipt_size
        (receipts : Store) (uuids : list string) (r : Request) (h : Handled) :
  processReceipt receipts uuids r = Some h ->
  (Status (response h) = StatusOK -> size (receipts' h) = S (size receipts))
  /\ (Status (response h) <> StatusOK -> receipts' h = receipts).
Proof.
  intros Hp. destruct (Content_cases (response h)) as [[id Hid] | Hno].
  - destruct (processReceipt_issued _ _ _ _ _ Hp Hid)
      as (_ & rs & rest & _ & _ & Hn%newId_fresh & ->).
    cbn. split; [intros _; now apply map_size_insert_None | congruence].
  - destruct (processReceipt_not_issued _ _ _ _ Hp Hno) as (-> & _ & Hs).
    split; [congruence | reflexivity].
Qed.

Lemma processReceipt_size_witness :
  processReceipt (storeOf receiptA) [uuid; "another"] (submit receiptB)
  = Some (mkHandled (mkResponse StatusOK (ReceiptIDResponse "another") None)
                    (<["another" := receiptB]> (storeOf receiptA)) [])
  /\ (Status (mkResponse StatusOK (ReceiptIDResponse "another") None) = StatusOK ->
      size (<["another" := receiptB]> (storeOf receiptA)) = S (size (storeOf receiptA)))
  /\ (Status (mkResponse StatusOK (ReceiptIDResponse "another") None) <> StatusOK ->
      <["another" := receiptB]> (storeOf receiptA) = storeOf receiptA).
Proof.
  assert (Hp : processReceipt (storeOf receiptA) [uuid; "another"] (submit receiptB)
               = Some (mkHandled (mkResponse StatusOK (ReceiptIDResponse "another") None)
                                 (<["another" := receiptB]> (storeOf receiptA)) []))
    by (vm_compute; reflexivity).
  split; [exact Hp |].
  exact (processReceipt_size (storeOf receiptA) [uuid; "another"] (submit receiptB) _ Hp).
Defined.

(** X11.  A call of [processReceipt] changes the answer of
    [getReceiptPoints] for no identifier but the one it issued: the points of
    the receipts stored before, and the not-found answers for every other
    identifier, stay as they were. *)
Theorem processReceipt_frame
        (receipts : Store) (uuids : list string) (r : Request) (h : Handled)
        (q : Request) :
  processReceipt receipts uuids r = Some h ->
  Content (response h) <> ReceiptIDResponse (PathId q) ->
  getReceiptPoints (receipts' h) q = getReceiptPoints receipts q.
Proof.
  intros Hp Hq. destruct (Content_cases (response h)) as [[id Hid] | Hno].
  - destruct (processReceipt_issued _ _ _ _ _ Hp Hid)
      as (_ & rs & rest & _ & _ & _ & ->).
    cbn in Hq |- *.
    assert (Hne : id <> PathId q) by congruence.
    unfold getReceiptPoints, wasReceiptProcessed.
    now rewrite lookup_insert_ne by assumption.
  - now destruct (processReceipt_not_issued _ _ _ _ Hp Hno) as (-> & _).
Qed.

Lemma processReceipt_frame_witness :
  processReceipt (storeOf receiptA) [uuid; "another"] (submit receiptB)
  = Some (mkHandled (mkResponse StatusOK (ReceiptIDResponse "another") None)
                    (<["another" := receiptB]> (storeOf receiptA)) [])
  /\ Content (mkResponse StatusOK (ReceiptIDResponse "another") None)
     <> ReceiptIDResponse (PathId (query uuid))
  /\ getReceiptPoints (<["another" := receiptB]> (storeOf receiptA)) (query uuid)
     = getReceiptPoints (storeOf receiptA) (query uuid).
Proof.
  assert (Hp : processReceipt (storeOf receiptA) [uuid; "another"] (submit receiptB)
               = Some (mkHandled (mkResponse StatusOK (ReceiptIDResponse "another") None)
                                 (<["another" := receiptB]> (storeOf receiptA)) []))
    by (vm_compute; reflexivity).
  assert (Hq : Content (mkResponse StatusOK (ReceiptIDResponse "another") None)
               <> ReceiptIDResponse (PathId (query uuid))) by discriminate.
  split; [exact Hp |]. split; [exact Hq |].
  exact (processReceipt_frame (storeOf receiptA) [uuid; "another"] (submit receiptB)
           _ (query uuid) Hp Hq).
Defined.

(** X12.  Identifiers never repeat along a run: an identifier issued by a
    call of [processReceipt] differs from every identifier issued by a later
    call, and the receipt it was issued for is still stored under it then. *)
Theorem identifiers_never_repeat
        (receipts later : Store) (uuids1 uuids2 : list string)
        (r1 r2 : Request) (h1 h2 : Handled) (id1 id2 : string) :
  processReceipt receipts uuids1 r1 = Some h1 ->
  Content (response h1) = ReceiptIDResponse id1 ->
  follows (receipts' h1) later ->
  processReceipt later uuids2 r2 = Some h2 ->
  Content (response h2) = ReceiptIDResponse id2 ->
  id1 <> id2 /\ receipts' h2 !! id1 = Decoded r1.
Proof.
  intros Hp1 Hc1 Hrun Hp2 Hc2.
  destruct (processReceipt_issued _ _ _ _ _ Hp1 Hc1)
    as (_ & rs1 & rest1 & -> & _ & _ & ->).
  cbn [receipts'] in Hrun.
  assert (Hlater : later !! id1 = Some rs1)
    by (eapply follows_keeps; [exact Hrun | apply lookup_insert_eq]).
  destruct (processReceipt_issued _ _ _ _ _ Hp2 Hc2)
    as (_ & rs2 & rest2 & _ & _ & Hfresh%newId_fresh & ->).
  assert (Hne : id1 <> id2) by congruence.
  split; [assumption |]. cbn [receipts'].
  rewrite lookup_insert_ne by congruence. assumption.
Qed.

Lemma identifiers_never_repeat_witness :
  processReceipt ∅ [uuid] (submit receiptA)
  = Some (mkHandled (mkResponse StatusOK (ReceiptIDResponse uuid) None)
                    (storeOf receiptA) [])
  /\ Content (mkResponse StatusOK (ReceiptIDResponse uuid) None)
     = ReceiptIDResponse uuid
  /\ follows (storeOf receiptA) (storeOf receiptA)
  /\ processReceipt (storeOf receiptA) [uuid; "another"] (submit receiptB)
     = Some (mkHandled (mkResponse StatusOK (ReceiptIDResponse "another") None)
                       (<["another" := receiptB]> (storeOf receiptA)) [])
  /\ Content (mkResponse StatusOK (ReceiptIDResponse "another") None)
     = ReceiptIDResponse "another"
  /\ uuid <> "another"
  /\ <["another" := receiptB]> (storeOf receiptA) !! uuid = Decoded (submit receiptA).
Proof.
  assert (Hp1 : processReceipt ∅ [uuid] (submit receiptA)
                = Some (mkHandled (mkResponse StatusOK (ReceiptIDResponse uuid) None)
                                  (storeOf receiptA) []))
    by (vm_compute; reflexivity).
  assert (Hp2 : processReceipt (storeOf receiptA) [uuid; "another"] (submit receiptB)
                = Some (mkHandled (mkResponse StatusOK (ReceiptIDResponse "another") None)
                                  (<["another" := receiptB]> (storeOf receiptA)) []))
    by (vm_compute; reflexivity).
  split; [exact Hp1 |]. split; [reflexivity |].
  split; [apply follows_refl |]. split; [exact Hp2 |]. split; [reflexivity |].
  exact (identifiers_never_repeat ∅ (storeOf receiptA) [uuid] [uuid; "another"]
           (submit receiptA) (submit receiptB) _ _ uuid "another"
           Hp1 eq_refl (follows_refl _) Hp2 eq_refl).
Defined.

(** X13.  An identifier [processReceipt] issues is the text of a [UUID]: 36
    bytes without white space.  Asking for its points right away is
    answered with status 200 and the points of the receipt submitted. *)
Theorem issued_identifier_retrieves
        (receipts : Store) (randoms : list (list ascii)) (r : Request)
        (h : Handled) (id : string) :
  reachable receipts ->
  Forall (fun random => length random = 16%nat) randoms ->
  processReceipt receipts (drawn randoms) r = Some h ->
  Content (response h) = ReceiptIDResponse id ->
  String.length id = 36%nat
  /\ ofClass Char.nonspace id
  /\ exists points,
      receiptPoints (Decoded r) = Some points
      /\ getReceiptPoints (receipts' h) (query id)
         = Some (mkResponse StatusOK (PointsResponse points) None).
Proof.
  intros Hreach Hlen Hp Hc.
  destruct (processReceipt_issued _ _ _ _ _ Hp Hc)
    as (_ & rs & rest & Hd & Hv & Hn & ->).
  apply newId_In, drawn_In in Hn as (random & Hin & ->).
  rewrite List.Forall_forall in Hlen.
  pose proof (String_nonspace (UUID.New random)) as Hns.
  split; [apply String_length; rewrite New_length; now apply Hlen |].
  split; [assumption |].
  destruct (receiptPoints_total rs Hv) as [points Hpoints].
  exists points. rewrite Hd. split; [assumption |].
  unfold getReceiptPoints, wasReceiptProcessed.
  cbn [query Method PathId receipts' String.eqb Ascii.eqb Bool.eqb negb].
  rewrite (proj2 (id_match _) Hns), lookup_insert_eq. cbn [negb].
  now rewrite Hpoints.
Qed.

Lemma issued_identifier_retrieves_witness :
  reachable (storeOf receiptB)
  /\ Forall (fun random => length random = 16%nat)
            [list_ascii_of_string "abcdefghijklmnop"]
  /\ processReceipt (storeOf receiptB)
       (drawn [list_ascii_of_string "abcdefghijklmnop"])
       (submit receiptA)
     = Some (mkHandled
               (mkResponse StatusOK
                  (ReceiptIDResponse "61626364-6566-4768-a96a-6b6c6d6e6f70") None)
               (<["61626364-6566-4768-a96a-6b6c6d6e6f70" := receiptA]>
                  (storeOf receiptB)) [])
  /\ Content (mkResponse StatusOK
                (ReceiptIDResponse "61626364-6566-4768-a96a-6b6c6d6e6f70") None)
     = ReceiptIDResponse "61626364-6566-4768-a96a-6b6c6d6e6f70"
  /\ String.length "61626364-6566-4768-a96a-6b6c6d6e6f70" = 36%nat
  /\ ofClass Char.nonspace "61626364-6566-4768-a96a-6b6c6d6e6f70"
  /\ exists points,
      receiptPoints (Decoded (submit receiptA)) = Some points
      /\ getReceiptPoints
           (<["61626364-6566-4768-a96a-6b6c6d6e6f70" := receiptA]> (storeOf receiptB))
           (query "61626364-6566-4768-a96a-6b6c6d6e6f70")
         = Some (mkResponse StatusOK (PointsResponse points) None).
Proof.
  assert (Hr : reachable (storeOf receiptB))
    by (apply reachable_storeOf; vm_compute; reflexivity).
  assert (Hl : Forall (fun random => length random = 16%nat)
                      [list_ascii_of_string "abcdefghijklmnop"])
    by (repeat constructor).
  assert (Hp : processReceipt (storeOf receiptB)
                 (drawn [list_ascii_of_string "abcdefghijklmnop"])
                 (submit receiptA)
               = Some (mkHandled
                         (mkResponse StatusOK
                            (ReceiptIDResponse "61626364-6566-4768-a96a-6b6c6d6e6f70")
                            None)
                         (<["61626364-6566-4768-a96a-6b6c6d6e6f70" := receiptA]>
                            (storeOf receiptB)) []))
    by (vm_compute; reflexivity).
  split; [exact Hr |]. split; [exact Hl |]. split; [exact Hp |].
  split; [reflexivity |].
  exact (issued_identifier_retrieves (storeOf receiptB) _ (submit receiptA) _ _
           Hr Hl Hp eq_refl).
Defined.

(** X14.  On a store the program can be in, the line [getReceiptPoints]
    prints tells the two not-found answers apart: ["Invalid receipt id"]
    exactly when the identifier is empty or holds white space, ["No receipt
    with the such id"] exactly when it is well formed and no key of the map,
    and no line exactly when the points are returned. *)
Theorem getReceiptPoints_printed (receipts : Store) (id : string) :
  reachable receipts ->
  exists resp,
    getReceiptPoints receipts (query id) = Some resp
    /\ (Printed resp = Some "Invalid receipt id" <-> ~ ofClass Char.nonspace id)
    /\ (Printed resp = Some "No receipt with the such id"
        <-> ofClass Char.nonspace id /\ receipts !! id = None)
    /\ (Printed resp = None
        <-> ofClass Char.nonspace id /\ is_Some (receipts !! id)).
Proof.
  intros Hvalid%reachable_storeValid.
  unfold getReceiptPoints, notFound, wasReceiptProcessed.
  cbn [query Method PathId String.eqb Ascii.eqb Bool.eqb negb].
  pose proof (id_match id) as Hid.
  destruct (MatchString idRegExp id); cbn [negb].
  - assert (Hc : ofClass Char.nonspace id) by now apply Hid.
    destruct (receipts !! id) as [rs |] eqn:Hrs; cbn [negb].
    + destruct (receiptPoints_total rs (Hvalid id rs Hrs)) as [points ->].
      eexists. split; [reflexivity |]. cbn [Printed].
      split; [split; [discriminate | tauto] |].
      split; [split; [discriminate | intros [_ [=]]] |].
      split; [eauto | reflexivity].
    + eexists. split; [reflexivity |]. cbn [Printed].
      split; [split; [discriminate | tauto] |].
      split; [tauto |].
      split; [discriminate | intros [_ [? [=]]]].
  - assert (Hn : ~ ofClass Char.nonspace id) by (intros H%Hid; discriminate).
    eexists. split; [reflexivity |]. cbn [Printed].
    split; [tauto |]. split; [split; [discriminate | tauto] |].
    split; [discriminate | tauto].
Qed.

Lemma getReceiptPoints_printed_witness :
  reachable (storeOf receiptA)
  /\ exists resp,
      getReceiptPoints (storeOf receiptA) (query "no such id") = Some resp
      /\ (Printed resp = Some "Invalid receipt id"
          <-> ~ ofClass Char.nonspace "no such id")
      /\ (Printed resp = Some "No receipt with the such id"
          <-> ofClass Char.nonspace "no such id"
              /\ storeOf receiptA !! "no such id" = None)
      /\ (Printed resp = None
          <-> ofClass Char.nonspace "no such id"
              /\ is_Some (storeOf receiptA !! "no such id")).
Proof.
  assert (Hr : reachable (storeOf receiptA))
    by (apply reachable_storeOf; vm_compute; reflexivity).
  split; [exact Hr |].
  exact (getReceiptPoints_printed (storeOf receiptA) "no such id" Hr).
Defined.

(** X15.  The points of a stored receipt are the sum of what the rules add
    (a point a letter or digit of the retailer, 50 and 25 for the total, 5 a
    pair of items, the award of every item whose trimmed description has a
    length that is a multiple of 3, 6 for an odd day, 10 for an hour of 14 or
    15) reduced modulo [2^64] to the range of [int64]: the order of the
    rules and the wrapping of the intermediate sums do not show. *)
Theorem stored_points_rule_sum
        (receipts : Store) (id retailer d t : string)
        (items : list ItemStruct) (total : string) :
  reachable receipts ->
  receipts !! id = present retailer d t items total ->
  receiptPoints (receipts !! id)
  = Some (Float64.wrap64 (ruleSum retailer d t items total)).
Proof.
  intros Hvalid%reachable_storeValid Hid. rewrite Hid.
  apply receiptPoints_ruleSum.
  specialize (Hvalid id _ Hid). apply validate_None in Hvalid.
  unfold checkOrder in Hvalid. rewrite !Forall_cons_iff in Hvalid.
  destruct Hvalid as (_ & _ & _ & _ & _ & Hwf%holds_ItemsWellFormed & _).
  apply checkItems_None in Hwf.
  eapply List.Forall_impl; [| exact Hwf].
  intros item (dd & p & -> & -> & _). eauto.
Qed.

Lemma stored_points_rule_sum_witness :
  reachable (storeOf receiptB)
  /\ storeOf receiptB !! uuid
     = present "M&M Corner Market" "2022-03-20" "14:33"
         [item "Gatorade" "2.25"; item "Gatorade" "2.25";
          item "Gatorade" "2.25"; item "Gatorade" "2.25"] "9.00"
  /\ receiptPoints (storeOf receiptB !! uuid)
     = Some (Float64.wrap64
               (ruleSum "M&M Corner Market" "2022-03-20" "14:33"
                  [item "Gatorade" "2.25"; item "Gatorade" "2.25";
                   item "Gatorade" "2.25"; item "Gatorade" "2.25"] "9.00")).
Proof.
  assert (Hr : reachable (storeOf receiptB))
    by (apply reachable_storeOf; vm_compute; reflexivity).
  assert (Hl : storeOf receiptB !! uuid
               = present "M&M Corner Market" "2022-03-20" "14:33"
                   [item "Gatorade" "2.25"; item "Gatorade" "2.25";
                    item "Gatorade" "2.25"; item "Gatorade" "2.25"] "9.00")
    by (vm_compute; reflexivity).
  split; [exact Hr |]. split; [exact Hl |].
  exact (stored_points_rule_sum (storeOf receiptB) uuid _ _ _ _ _ Hr Hl).
Defined.

(** X16.  For every total of the price shape below 100.00, the tests the
    handler makes on the [float64] are the exact ones: the 50 points are
    awarded exactly when the cents are a multiple of 100, the 25 points
    exactly when they are a multiple of 25. *)
Theorem total_rules_exact_below_100 (total : string) (c : Z) :
  cents total = Some c -> c < 10000 ->
  (wholeDollar total = true <-> c mod 100 = 0)
  /\ (quarterMultiple total = true <-> c mod 25 = 0).
Proof.
  intros Hc Hlt.
  destruct (total_tests_exact total) as [-> ->];
    [eauto | unfold centsOf; now rewrite Hc |].
  unfold centsOf. rewrite Hc, !Z.eqb_eq. tauto.
Qed.

Lemma total_rules_exact_below_100_witness :
  cents "35.35" = Some 3535 /\ 3535 < 10000
  /\ (wholeDollar "35.35" = true <-> 3535 mod 100 = 0)
  /\ (quarterMultiple "35.35" = true <-> 3535 mod 25 = 0).
Proof.
  assert (Hc : cents "35.35" = Some 3535) by (vm_compute; reflexivity).
  assert (Hl : 3535 < 10000) by lia.
  split; [exact Hc |]. split; [exact Hl |].
  exact (total_rules_exact_below_100 "35.35" 3535 Hc Hl).
Defined.

(** X17.  For a stored receipt whose total is of the price shape and whose
    total and prices are below 100.00 (and whose retailer and items are not
    astronomically long), [getReceiptPoints] answers with the score computed
    on exact amounts: the letters and digits of the retailer, 50 if the cents
    of the total are a multiple of 100, 25 if a multiple of 25, 5 a pair of
    items, the ceiling of a fifth of the price of every item whose trimmed
    description has a length that is a multiple of 3, 6 if the last two
    digits of the date are odd, 10 if the hour is 14 or 15.  The score is not
    negative. *)
Theorem ordinary_receipt_points
        (receipts : Store) (id retailer d t : string)
        (items : list ItemStruct) (total : string) :
  reachable receipts ->
  ofClass Char.nonspace id ->
  receipts !! id = present retailer d t items total ->
  is_Some (cents total) -> centsOf total < 10000 ->
  Forall (fun item => forall p, Price item = Some p -> centsOf p < 10000) items ->
  Z.of_nat (String.length retailer) + 23 * Z.of_nat (length items) < 2 ^ 62 ->
  getReceiptPoints receipts (query id)
  = Some (mkResponse StatusOK
            (PointsResponse (exactPoints retailer d t items total)) None)
  /\ 0 <= exactPoints retailer d t items total.
Proof.
  intros Hreach Hid Hrs Htotal Hlt Hsmall Hsize.
  pose proof (reachable_storeValid receipts Hreach id _ Hrs) as Hv.
  destruct (ruleSum_exact retailer d t items total Hv Htotal Hlt Hsmall Hsize)
    as [Esum Hrange].
  split; [| lia].
  assert (Hwf : Forall (fun item => is_Some (ShortDescription item)
                                    /\ is_Some (Price item)) items).
  { apply validate_None in Hv. unfold checkOrder in Hv.
    rewrite !Forall_cons_iff in Hv.
    destruct Hv as (_ & _ & _ & _ & _ & Hwf%holds_ItemsWellFormed & _).
    apply checkItems_None in Hwf.
    eapply List.Forall_impl; [| exact Hwf].
    intros item (dd & p & -> & -> & _). eauto. }
  unfold getReceiptPoints, wasReceiptProcessed.
  cbn [query Method PathId String.eqb Ascii.eqb Bool.eqb negb].
  rewrite (proj2 (id_match id) Hid), Hrs. unfold present at 1. cbn [negb].
  rewrite (receiptPoints_ruleSum retailer d t items total Hwf), Esum.
  rewrite wrap64_inInt64; [reflexivity |].
  unfold inInt64, Float64.minInt64, Float64.maxInt64. lia.
Qed.

Lemma receiptA_prices_small :
  Forall (fun item => forall p, Price item = Some p -> centsOf p < 10000)
         [item "Mountain Dew 12PK" "6.49";
          item "Emils Cheese Pizza" "12.25";
          item "Knorr Creamy Chicken" "1.26";
          item "Doritos Nacho Cheese" "3.35";
          item "   Klarbrunn 12-PK 12 FL OZ  " "12.00"].
Proof.
  repeat (apply List.Forall_cons; [intros p [= <-]; vm_compute; reflexivity |]).
  apply List.Forall_nil.
Defined.

Lemma ordinary_receipt_points_witness :
  reachable (storeOf receiptA)
  /\ ofClass Char.nonspace uuid
  /\ storeOf receiptA !! uuid
     = present "Target" "2022-01-01" "13:01"
         [item "Mountain Dew 12PK" "6.49";
          item "Emils Cheese Pizza" "12.25";
          item "Knorr Creamy Chicken" "1.26";
          item "Doritos Nacho Cheese" "3.35";
          item "   Klarbrunn 12-PK 12 FL OZ  " "12.00"] "35.35"
  /\ is_Some (cents "35.35") /\ centsOf "35.35" < 10000
  /\ Z.of_nat (String.length "Target") + 23 * Z.of_nat 5 < 2 ^ 62
  /\ getReceiptPoints (storeOf receiptA) (query uuid)
     = Some (mkResponse StatusOK
               (PointsResponse
                  (exactPoints "Target" "2022-01-01" "13:01"
                     [item "Mountain Dew 12PK" "6.49";
                      item "Emils Cheese Pizza" "12.25";
                      item "Knorr Creamy Chicken" "1.26";
                      item "Doritos Nacho Cheese" "3.35";
                      item "   Klarbrunn 12-PK 12 FL OZ  " "12.00"] "35.35")) None)
  /\ 0 <= exactPoints "Target" "2022-01-01" "13:01"
            [item "Mountain Dew 12PK" "6.49";
             item "Emils Cheese Pizza" "12.25";
             item "Knorr Creamy Chicken" "1.26";
             item "Doritos Nacho Cheese" "3.35";
             item "   Klarbrunn 12-PK 12 FL OZ  " "12.00"] "35.35".
Proof.
  assert (Hr : reachable (storeOf receiptA))
    by (apply reachable_storeOf; vm_compute; reflexivity).
  assert (Hid : ofClass Char.nonspace uuid)
    by (split; [discriminate | vm_compute; reflexivity]).
  assert (Hl : storeOf receiptA !! uuid
               = present "Target" "2022-01-01" "13:01"
                   [item "Mountain Dew 12PK" "6.49";
                    item "Emils Cheese Pizza" "12.25";
                    item "Knorr Creamy Chicken" "1.26";
                    item "Doritos Nacho Cheese" "3.35";
                    item "   Klarbrunn 12-PK 12 FL OZ  " "12.00"] "35.35")
    by (vm_compute; reflexivity).
  assert (Hc : is_Some (cents "35.35")) by (vm_compute; eauto).
  assert (Hlt : centsOf "35.35" < 10000) by (vm_compute; reflexivity).
  assert (Hs : Z.of_nat (String.length "Target") + 23 * Z.of_nat 5 < 2 ^ 62)
    by (vm_compute; reflexivity).
  split; [exact Hr |]. split; [exact Hid |]. split; [exact Hl |].
  split; [exact Hc |]. split; [exact Hlt |]. split; [exact Hs |].
  exact (ordinary_receipt_points (storeOf receiptA) uuid _ _ _ _ _
           Hr Hid Hl Hc Hlt receiptA_prices_small Hs).
Defined.

(** X18.  The handler drops the error of [strconv.ParseFloat]: a total that
    is empty, or that starts with a byte no number starts with, is read as 0
    and earns both the 50 and the 25 points. *)
Theorem total_not_a_number_scores (total : string) :
  total = "" \/ (exists c rest, total = String c rest /\ startsNoNumber c = true) ->
  Strconv.ParseFloat total = Float64.zero false
  /\ wholeDollar total = true /\ quarterMultiple total = true.
Proof.
  intros H.
  assert (E : Strconv.ParseFloat total = Float64.zero false).
  { destruct H as [-> | (c & rest & -> & Hc)]; [reflexivity |].
    unfold startsNoNumber in Hc. apply negb_true_iff in Hc.
    repeat (apply orb_false_iff in Hc as [Hc ?]).
    assert (H48 : Char.byte 48 c = false).
    { unfold Char.byte. apply Z.eqb_neq. intros E.
      unfold Char.isDigit, Char.between in Hc. rewrite E in Hc. discriminate. }
    assert (Es : Strconv.special (String c rest) = None).
    { unfold Strconv.special.
      repeat match goal with
             | E : Char.byte _ c = false |- _ => rewrite E; clear E
             end.
      reflexivity. }
    assert (Er : Strconv.readFloat (String c rest) = None).
    { unfold Strconv.readFloat.
      repeat match goal with
             | E : Char.byte ?k c = false |- context [Char.byte ?k c] => rewrite E
             end.
      assert (Eb : Strconv.basePrefix (String c rest) = (false, String c rest)).
      { unfold Strconv.basePrefix. destruct rest as [| b [| c2 r]]; try reflexivity.
        now rewrite H48. }
      rewrite Eb. cbn [Strconv.readDigits].
      repeat match goal with
             | E : Char.byte ?k c = false |- context [Char.byte ?k c] => rewrite E
             end.
      rewrite Hc. reflexivity. }
    unfold Strconv.ParseFloat. now rewrite Es, Er. }
  unfold wholeDollar, quarterMultiple. rewrite E.
  repeat split; vm_compute; reflexivity.
Qed.

Lemma total_not_a_number_scores_witness :
  ("abc" = "" \/ (exists c rest, "abc" = String c rest /\ startsNoNumber c = true))
  /\ Strconv.ParseFloat "abc" = Float64.zero false
  /\ wholeDollar "abc" = true /\ quarterMultiple "abc" = true.
Proof.
  assert (H : "abc" = "" \/ (exists c rest, "abc" = String c rest
                                            /\ startsNoNumber c = true))
    by (right; exists "a"%char, "bc"; split; reflexivity).
  split; [exact H |].
  exact (total_not_a_number_scores "abc" H).
Defined.

End Coverage.
